(** * Neoflix catalogue services: movies and people

    A shallow embedding of the two service files of the repository,
    the movie service and [pkg/services/people.go].  The Go methods
    are translated as functions in a small transaction monad that threads the
    log of the statements submitted to the store; the Cypher statements they
    submit are kept both as text (what the code builds with [fmt.Sprintf]) and
    as a denotation over a property graph (what the text asks the store to
    compute). *)

From Stdlib Require Import QArith Ascii.
From stdpp Require Import gmap strings list fin_maps sorting.

#[local] Set Warnings "-register-all".
Close Scope Q_scope.

(** ** Values exchanged with the store

    [map[string]interface{}] holds Cypher values: null, booleans, integers,
    floats, strings, lists and maps.  Floats are represented by exact
    rationals; only their order and their product with a count are used. *)

Inductive value :=
| VNull
| VBool (b : bool)
| VInt (z : Z)
| VFloat (q : Q)
| VStr (s : string)
| VList (l : list value)
| VMap (m : gmap string value).

(** [type Movie = map[string]interface{}], [type Person = map[string]interface{}],
    the parameter map of [tx.Run] and the driver's records. *)
Abbreviation Movie := (gmap string value).
Abbreviation Person := (gmap string value).
Abbreviation Params := (gmap string value).
Abbreviation DbRecord := (gmap string value).

Definition is_null (v : value) : bool :=
  match v with VNull => true | _ => false end.

Definition num_of (v : value) : option Q :=
  match v with
  | VInt z => Some (inject_Z z)
  | VFloat q => Some q
  | _ => None
  end.

(** Cypher's order of values of different types under [ORDER BY ... ASC]:
    maps, lists, strings, booleans, numbers, and null last. *)
Definition type_rank (v : value) : nat :=
  match v with
  | VMap _ => 0
  | VList _ => 1
  | VStr _ => 2
  | VBool _ => 3
  | VInt _ | VFloat _ => 4
  | VNull => 5
  end.

(** [value_leb a b]: [a] sorts no later than [b] in ascending order.  Two
    lists or two maps are not compared further (no query here sorts on one). *)
Definition value_leb (a b : value) : bool :=
  match a, b with
  | VStr s, VStr t => String.leb s t
  | VBool x, VBool y => implb x y
  | _, _ =>
      match num_of a, num_of b with
      | Some p, Some q => Qle_bool p q
      | _, _ => Nat.leb (type_rank a) (type_rank b)
      end
  end.

(** Cypher equality of two scalars, as a filter sees it: null equals nothing. *)
Definition value_eqb (a b : value) : bool :=
  match a, b with
  | VStr s, VStr t => String.eqb s t
  | VBool x, VBool y => Bool.eqb x y
  | _, _ =>
      match num_of a, num_of b with
      | Some p, Some q => Qeq_bool p q
      | _, _ => false
      end
  end.

(** [v IN l] with Cypher's three-valued logic. *)
Definition cypher_in (v : value) (l : list value) : value :=
  match v with
  | VNull => match l with [] => VBool false | _ => VNull end
  | _ =>
      if existsb (value_eqb v) l then VBool true
      else if existsb is_null l then VNull
      else VBool false
  end.

(** [toLower] on the ASCII range and [CONTAINS]. *)
Definition lower_char (c : ascii) : ascii :=
  let n := nat_of_ascii c in
  if (65 <=? n)%nat && (n <=? 90)%nat then ascii_of_nat (n + 32) else c.

Fixpoint toLower (s : string) : string :=
  match s with
  | EmptyString => EmptyString
  | String c s' => String (lower_char c) (toLower s')
  end.

Fixpoint starts_with (s t : string) {struct t} : bool :=
  match t, s with
  | EmptyString, _ => true
  | String b t', String a s' => Ascii.eqb a b && starts_with s' t'
  | String _ _, EmptyString => false
  end.

Fixpoint contains (s t : string) : bool :=
  starts_with s t ||
  match s with
  | EmptyString => false
  | String _ s' => contains s' t
  end.

(** ** Errors and results

    A Go pair [(T, error)] is a [result].  [NotFound] is the error of
    [result.Single()] on a result without records, [NotSingle] its error on
    more than one record, [Panic] a failed type assertion. *)

Inductive error :=
| QueryFailure (reason : string)
| NotFound
| NotSingle
| Panic (reason : string).

Inductive result (A : Type) :=
| Ok (a : A)
| Err (e : error).
Arguments Ok {A} a.
Arguments Err {A} e.

#[global] Instance result_ret : MRet result := λ A a, Ok a.
#[global] Instance result_bind : MBind result :=
  λ A B f r, match r with Ok a => f a | Err e => Err e end.

Fixpoint traverse {A B} (f : A → result B) (l : list A) : result (list B) :=
  match l with
  | [] => Ok []
  | x :: l' => y ← f x; ys ← traverse f l'; Ok (y :: ys)
  end.

Definition error_of {A} (r : result A) : option error :=
  match r with Ok _ => None | Err e => Some e end.

(** ** Sorting

    [ORDER BY] as a stable insertion sort over the order in which the store
    produced the rows: rows that compare equal keep the store's order. *)

Section Sorting.
Context {A : Type} (leb : A → A → bool).

Fixpoint insert_by (x : A) (l : list A) : list A :=
  match l with
  | [] => [x]
  | y :: l' => if leb x y then x :: l else y :: insert_by x l'
  end.

Fixpoint sort_by (l : list A) : list A :=
  match l with
  | [] => []
  | x :: l' => insert_by x (sort_by l')
  end.
End Sorting.

(** ** Paging *)

Inductive Direction := ASC | DESC.

Definition order_keyword (o : Direction) : string :=
  match o with ASC => "ASC" | DESC => "DESC" end.

(** Modelled from the spec: the type [paging.Paging] of
    [pkg/routes/paging] with its accessors [Sort()], [Order()], [Skip()],
    [Limit()] and [Query()]: a property name, ASC or DESC, two integers and
    an optional free-text filter, nil meaning no filter. *)
Record Paging := {
  Sort : string;
  Order : Direction;
  Skip : Z;
  Limit : Z;
  Query : option string
}.

(** Modelled from the spec: a valid PagingSpec has a non-negative [skip] and
    a positive [limit].  The allow-list of sort properties and the maximum of
    [limit] are configuration of [pkg/routes/paging]; nothing below depends
    on them. *)
Definition valid_paging (page : Paging) : Prop :=
  (0 ≤ Skip page)%Z ∧ (0 < Limit page)%Z.

(** Modelled from the spec: [fixtures.Slice] of [pkg/fixtures], the
    client-side skip/limit slice: the elements from offset [skip], at most
    [limit] of them. *)
Definition Slice {A} (results : list A) (skip limit : Z) : list A :=
  take (Z.to_nat limit) (drop (Z.to_nat skip) results).

(** ** The property graph held by the store

    Nodes with labels and properties, relationships with a type and two ends.
    The order of the two lists is the order in which the store enumerates its
    nodes and relationships; it is not part of the data. *)

Record Node := {
  node_id : nat;
  node_labels : list string;
  node_props : gmap string value
}.

Record Rel := {
  rel_id : nat;
  rel_start : nat;
  rel_type : string;
  rel_end : nat;
  rel_props : gmap string value
}.

Record Graph := {
  nodes : list Node;
  rels : list Rel
}.

(** [n.k]: an absent property reads as null. *)
Definition prop (n : Node) (k : string) : value :=
  default VNull (node_props n !! k).

Definition rprop (r : Rel) (k : string) : value :=
  default VNull (rel_props r !! k).

Definition has_label (l : string) (n : Node) : bool :=
  existsb (String.eqb l) (node_labels n).

Definition same_node (a b : Node) : bool := Nat.eqb (node_id a) (node_id b).

Definition find_node (g : Graph) (i : nat) : option Node :=
  List.find (λ n, Nat.eqb (node_id n) i) (nodes g).

Definition has_type (types : list string) (r : Rel) : bool :=
  existsb (String.eqb (rel_type r)) types.

(** [(n)-[r:T1|T2]->(x)]: the pairs [(r, x)]. *)
Definition outgoing (g : Graph) (types : list string) (n : Node) : list (Rel * Node) :=
  r ← List.filter (λ r, Nat.eqb (rel_start r) (node_id n) && has_type types r) (rels g);
  x ← option_list (find_node g (rel_end r));
  [(r, x)].

(** [(n)<-[r:T1|T2]-(x)]: the pairs [(r, x)]. *)
Definition incoming (g : Graph) (types : list string) (n : Node) : list (Rel * Node) :=
  r ← List.filter (λ r, Nat.eqb (rel_end r) (node_id n) && has_type types r) (rels g);
  x ← option_list (find_node g (rel_start r));
  [(r, x)].

(** [(:label {key: v})] *)
Definition labelled (g : Graph) (label key : string) (v : value) : list Node :=
  List.filter (λ n, has_label label n && value_eqb (prop n key) v) (nodes g).

(** The first occurrence of every node of [l], in the order of [l]:
    the grouping keys of an aggregation. *)
Fixpoint distinct_nodes (l : list Node) : list Node :=
  match l with
  | [] => []
  | n :: l' => n :: List.filter (λ x, negb (same_node n x)) (distinct_nodes l')
  end.

(** ** The statements submitted to the store

    Each constructor is one of the query texts of the two services; the ones
    built with [fmt.Sprintf] carry the two interpolated fragments, the sort
    property and the direction.  [cypher] is the text passed to [tx.Run]; the
    meaning given to a statement further down is the one of its text for a
    sort property that is a plain name (no backquote in it). *)

Inductive Statement :=
| MoviesAll (sort : string) (order : Direction)
| MoviesByGenre (sort : string) (order : Direction)
| MoviesByActor (sort : string) (order : Direction)
| MoviesByDirector (sort : string) (order : Direction)
| MovieById
| MoviesSimilar
| UserFavorites
| PeopleAll (sort : string) (order : Direction)
| PersonById
| PeopleSimilar.

Definition text_MoviesAll (sort order : string) : string :=
  "
			MATCH (m:Movie)
			WHERE m.`"
  +:+ sort
  +:+ "` IS NOT NULL
			RETURN m { 
				.* ,
				favorite: m.tmdbId IN $favorites
			} AS movie
			ORDER BY m.`"
  +:+ sort
  +:+ "` "
  +:+ order
  +:+ "
			SKIP $skip
			LIMIT $limit
		".

Definition text_MoviesByGenre (sort order : string) : string :=
  "
			MATCH (m:Movie)-[:IN_GENRE]->(:Genre {name: $name})
			WHERE m.`"
  +:+ sort
  +:+ "` IS NOT NULL
			RETURN m { 
				.* ,
				favorite: m.tmdbId IN $favorites
			} AS movie
			ORDER BY m.`"
  +:+ sort
  +:+ "` "
  +:+ order
  +:+ "
			SKIP $skip
			LIMIT $limit
		".

Definition text_MoviesByActor (sort order : string) : string :=
  "
			MATCH (:Person {tmdbId: $id})-[:ACTED_IN]->(m:Movie)
			WHERE m.`"
  +:+ sort
  +:+ "` IS NOT NULL
			RETURN m { 
				.* ,
				favorite: m.tmdbId IN $favorites
			} AS movie
			ORDER BY m.`"
  +:+ sort
  +:+ "` "
  +:+ order
  +:+ "
			SKIP $skip
			LIMIT $limit
		".

Definition text_MoviesByDirector (sort order : string) : string :=
  "
			MATCH (:Person {tmdbId: $id})-[:DIRECTED]->(m:Movie)
			WHERE m.`"
  +:+ sort
  +:+ "` IS NOT NULL
			RETURN m { 
				.* ,
				favorite: m.tmdbId IN $favorites
			} AS movie
			ORDER BY m.`"
  +:+ sort
  +:+ "` "
  +:+ order
  +:+ "
			SKIP $skip
			LIMIT $limit
		".

Definition text_MovieById : string :=
  "
			MATCH (m:Movie {tmdbId: $id})
			RETURN m {
			  .*,
				actors: [ (a)-[r:ACTED_IN]->(m) | a { .*, role: r.role } ],
				directors: [ (d)-[:DIRECTED]->(m) | d { .* } ],
				genres: [ (m)-[:IN_GENRE]->(g) | g { .name }],
				ratingCount: size((m)<-[:RATED]-()),
				favorite: m.tmdbId IN $favorites
			} AS movie
			LIMIT 1".

Definition text_MoviesSimilar : string :=
  "
			MATCH (:Movie {tmdbId: $id})-[:IN_GENRE|ACTED_IN|DIRECTED]->()<-[:IN_GENRE|ACTED_IN|DIRECTED]-(m)
			WHERE m.imdbRating IS NOT NULL

			WITH m, count(" +:+ "*" +:+ ") AS inCommon
			WITH m, inCommon, m.imdbRating * inCommon AS score
			ORDER BY score DESC

			SKIP $skip
			LIMIT $limit

			RETURN m {
				.*,
				score: score,
				favorite: m.tmdbId IN $favorites
			} AS movie
		".

Definition text_UserFavorites : string :=
  "
		MATCH (u:User {userId: $userId})-[:HAS_FAVORITE]->(m)
		RETURN m.tmdbId AS id
	".

Definition text_PeopleAll (sort order : string) : string :=
  "
			MATCH (p:Person)
			WHERE $q IS NULL OR toLower(p.name) CONTAINS toLower($q)
			RETURN p { .* } AS person
			ORDER BY p.`"
  +:+ sort
  +:+ "` "
  +:+ order
  +:+ "
			SKIP $skip
			LIMIT $limit".

Definition text_PersonById : string :=
  "
				MATCH (p:Person { tmdbId: $id })
				RETURN p {
					.*,
					actedCount: size((p)-[:ACTED_IN]->()),
					directedCount: size((p)-[:DIRECTED]->())
				} AS person".

Definition text_PeopleSimilar : string :=
  "
			MATCH (:Person {tmdbId: $id})-[:ACTED_IN|DIRECTED]->(m)<-[r:ACTED_IN|DIRECTED]-(p)
			RETURN p {
				.*,
				actedCount: size((p)-[:ACTED_IN]->()),
				directedCount: size((p)-[:DIRECTED]->()),
				inCommon: collect(m {.tmdbId, .title, type: type(r)})
			} AS person
			ORDER BY size(person.inCommon) DESC
			SKIP $skip
			LIMIT $limit".

Definition cypher (st : Statement) : string :=
  match st with
  | MoviesAll sort order => text_MoviesAll sort (order_keyword order)
  | MoviesByGenre sort order => text_MoviesByGenre sort (order_keyword order)
  | MoviesByActor sort order => text_MoviesByActor sort (order_keyword order)
  | MoviesByDirector sort order => text_MoviesByDirector sort (order_keyword order)
  | MovieById => text_MovieById
  | MoviesSimilar => text_MoviesSimilar
  | UserFavorites => text_UserFavorites
  | PeopleAll sort order => text_PeopleAll sort (order_keyword order)
  | PersonById => text_PersonById
  | PeopleSimilar => text_PeopleSimilar
  end.

(** ** What the store computes for each statement *)

Definition param (ps : Params) (k : string) : result value :=
  match ps !! k with
  | Some v => Ok v
  | None => Err (QueryFailure "missing parameter")
  end.

(** [SKIP $k] and [LIMIT $k] take a non-negative integer. *)
Definition param_count (ps : Params) (k : string) : result nat :=
  v ← param ps k;
  match v with
  | VInt z =>
      if (0 <=? z)%Z then Ok (Z.to_nat z)
      else Err (QueryFailure "negative SKIP or LIMIT")
  | _ => Err (QueryFailure "SKIP and LIMIT take an integer")
  end.

(** [IN $k] takes a list (the services always bind one). *)
Definition param_list (ps : Params) (k : string) : result (list value) :=
  v ← param ps k;
  match v with
  | VList l => Ok l
  | _ => Err (QueryFailure "IN takes a list")
  end.

(** [SKIP skip LIMIT limit] *)
Definition window {A} (skip limit : nat) (rows : list A) : list A :=
  take limit (drop skip rows).

(** [ORDER BY key ASC] and [ORDER BY key DESC] *)
Definition ordered {A} (o : Direction) (key : A → value) (rows : list A) : list A :=
  sort_by (λ a b, match o with
                  | ASC => value_leb (key a) (key b)
                  | DESC => value_leb (key b) (key a)
                  end) rows.

Fixpoint filter_result {A} (f : A → result bool) (l : list A) : result (list A) :=
  match l with
  | [] => Ok []
  | x :: l' =>
      keep ← f x;
      rest ← filter_result f l';
      Ok (if keep : bool then x :: rest else rest)
  end.

(** [m { .*, favorite: m.tmdbId IN $favorites }] *)
Definition movie_projection (favorites : list value) (m : Node) : Movie :=
  <["favorite" := cypher_in (prop m "tmdbId") favorites]> (node_props m).

(** The part shared by the four movie lists:
    [WHERE m.`sort` IS NOT NULL RETURN m {...} AS movie ORDER BY m.`sort` order
     SKIP $skip LIMIT $limit] over the rows [matched] by the pattern. *)
Definition movie_matches (sort : string) (o : Direction) (matched : list Node) : list Node :=
  ordered o (λ m, prop m sort)
    (List.filter (λ m, negb (is_null (prop m sort))) matched).

Definition movie_list (sort : string) (o : Direction) (ps : Params)
    (matched : list Node) : result (list DbRecord) :=
  favorites ← param_list ps "favorites";
  skip ← param_count ps "skip";
  limit ← param_count ps "limit";
  Ok ((λ m, {["movie" := VMap (movie_projection favorites m)]})
        <$> window skip limit (movie_matches sort o matched)).

(** [MATCH (m:Movie)] *)
Definition all_movies (g : Graph) : list Node :=
  List.filter (has_label "Movie") (nodes g).

(** [MATCH (m:Movie)-[:IN_GENRE]->(:Genre {name: $name})] *)
Definition movies_in_genre (g : Graph) (name : value) : list Node :=
  m ← all_movies g;
  '(_, x) ← outgoing g ["IN_GENRE"] m;
  if has_label "Genre" x && value_eqb (prop x "name") name then [m] else [].

(** [MATCH (:Person {tmdbId: $id})-[:ACTED_IN]->(m:Movie)], and the same
    with [DIRECTED]. *)
Definition movies_of_person (g : Graph) (type : string) (id : value) : list Node :=
  p ← labelled g "Person" "tmdbId" id;
  '(_, m) ← outgoing g [type] p;
  if has_label "Movie" m then [m] else [].

(** The projection of [FindOneById] on movies. *)
Definition movie_detail (g : Graph) (favorites : list value) (m : Node) : Movie :=
  <["favorite" := cypher_in (prop m "tmdbId") favorites]>
  (<["ratingCount" := VInt (Z.of_nat (length (incoming g ["RATED"] m)))]>
  (<["genres" := VList ((λ '(_, x), VMap {["name" := prop x "name"]})
                          <$> outgoing g ["IN_GENRE"] m)]>
  (<["directors" := VList ((λ '(_, d), VMap (node_props d))
                             <$> incoming g ["DIRECTED"] m)]>
  (<["actors" := VList ((λ '(r, a), VMap (<["role" := rprop r "role"]> (node_props a)))
                          <$> incoming g ["ACTED_IN"] m)]>
  (node_props m))))).

Definition connection_types : list string := ["IN_GENRE"; "ACTED_IN"; "DIRECTED"].

(** [MATCH (:Movie {tmdbId: $id})-[:IN_GENRE|ACTED_IN|DIRECTED]->()
           <-[:IN_GENRE|ACTED_IN|DIRECTED]-(m)
     WHERE m.imdbRating IS NOT NULL]: one row per path; the two relationships
    of a path are distinct. *)
Definition similar_movie_paths (g : Graph) (id : value) : list Node :=
  s ← labelled g "Movie" "tmdbId" id;
  '(r1, x) ← outgoing g connection_types s;
  '(r2, m) ← incoming g connection_types x;
  if negb (Nat.eqb (rel_id r1) (rel_id r2)) && negb (is_null (prop m "imdbRating"))
  then [m] else [].

(** [WITH m, count( * ) AS inCommon] *)
Definition count_paths (rows : list Node) : list (Node * nat) :=
  (λ m, (m, length (List.filter (same_node m) rows))) <$> distinct_nodes rows.

(** [m.imdbRating * inCommon] *)
Definition cypher_mul (v : value) (n : nat) : result value :=
  match v with
  | VInt z => Ok (VInt (z * Z.of_nat n))
  | VFloat q => Ok (VFloat (q * inject_Z (Z.of_nat n)))
  | _ => Err (QueryFailure "cannot multiply")
  end.

(** [WITH m, inCommon, m.imdbRating * inCommon AS score] *)
Definition scored (groups : list (Node * nat)) : result (list (Node * value)) :=
  traverse (λ '(m, inCommon),
              score ← cypher_mul (prop m "imdbRating") inCommon;
              Ok (m, score)) groups.

(** [ORDER BY score DESC] *)
Definition by_score (rows : list (Node * value)) : list (Node * value) :=
  sort_by (λ a b, value_leb (snd b) (snd a)) rows.

(** [m { .*, score: score, favorite: m.tmdbId IN $favorites }] *)
Definition similar_projection (favorites : list value) (row : Node * value) : Movie :=
  <["favorite" := cypher_in (prop row.1 "tmdbId") favorites]>
  (<["score" := row.2]> (node_props row.1)).

(** [$q IS NULL OR toLower(p.name) CONTAINS toLower($q)]: a null name gives
    null, which the filter drops; [toLower] of anything but a string fails. *)
Definition name_filter (q : value) (p : Node) : result bool :=
  match q with
  | VNull => Ok true
  | VStr s =>
      match prop p "name" with
      | VStr name => Ok (contains (toLower name) (toLower s))
      | VNull => Ok false
      | _ => Err (QueryFailure "toLower takes a string")
      end
  | _ => Err (QueryFailure "toLower takes a string")
  end.

(** [MATCH (p:Person)] *)
Definition all_people (g : Graph) : list Node :=
  List.filter (has_label "Person") (nodes g).

(** [p { .*, actedCount: size((p)-[:ACTED_IN]->()),
         directedCount: size((p)-[:DIRECTED]->()) }] *)
Definition person_detail (g : Graph) (p : Node) : Person :=
  <["directedCount" := VInt (Z.of_nat (length (outgoing g ["DIRECTED"] p)))]>
  (<["actedCount" := VInt (Z.of_nat (length (outgoing g ["ACTED_IN"] p)))]>
  (node_props p)).

Definition credit_types : list string := ["ACTED_IN"; "DIRECTED"].

(** [MATCH (:Person {tmdbId: $id})-[:ACTED_IN|DIRECTED]->(m)
           <-[r:ACTED_IN|DIRECTED]-(p)]: the rows [(p, (m, r))]. *)
Definition similar_people_paths (g : Graph) (id : value) : list (Node * (Node * Rel)) :=
  s ← labelled g "Person" "tmdbId" id;
  '(r1, m) ← outgoing g credit_types s;
  '(r, p) ← incoming g credit_types m;
  if negb (Nat.eqb (rel_id r1) (rel_id r)) then [(p, (m, r))] else [].

(** The rows of every person [p], in the order of first appearance. *)
Definition collect_by_person (rows : list (Node * (Node * Rel))) :
    list (Node * list (Node * Rel)) :=
  (λ p, (p, snd <$> List.filter (λ row, same_node p row.1) rows))
    <$> distinct_nodes (fst <$> rows).

(** [m {.tmdbId, .title, type: type(r)}] *)
Definition shared_title (mr : Node * Rel) : value :=
  VMap (<["type" := VStr (rel_type mr.2)]>
       (<["title" := prop mr.1 "title"]>
       (<["tmdbId" := prop mr.1 "tmdbId"]> ∅))).

(** [p { .*, actedCount: ..., directedCount: ..., inCommon: collect(...) }] *)
Definition similar_person (g : Graph) (group : Node * list (Node * Rel)) : Person :=
  <["inCommon" := VList (shared_title <$> group.2)]> (person_detail g group.1).

(** [size(person.inCommon)] *)
Definition in_common_size (person : Person) : nat :=
  match person !! "inCommon" with
  | Some (VList l) => length l
  | _ => 0
  end.

(** [ORDER BY size(person.inCommon) DESC] *)
Definition by_in_common (people : list Person) : list Person :=
  sort_by (λ a b, Nat.leb (in_common_size b) (in_common_size a)) people.

Definition eval (g : Graph) (st : Statement) (ps : Params) : result (list DbRecord) :=
  match st with
  | MoviesAll sort o => movie_list sort o ps (all_movies g)
  | MoviesByGenre sort o =>
      name ← param ps "name";
      movie_list sort o ps (movies_in_genre g name)
  | MoviesByActor sort o =>
      id ← param ps "id";
      movie_list sort o ps (movies_of_person g "ACTED_IN" id)
  | MoviesByDirector sort o =>
      id ← param ps "id";
      movie_list sort o ps (movies_of_person g "DIRECTED" id)
  | MovieById =>
      id ← param ps "id";
      favorites ← param_list ps "favorites";
      Ok ((λ m, {["movie" := VMap (movie_detail g favorites m)]})
            <$> take 1 (labelled g "Movie" "tmdbId" id))
  | MoviesSimilar =>
      id ← param ps "id";
      favorites ← param_list ps "favorites";
      skip ← param_count ps "skip";
      limit ← param_count ps "limit";
      rows ← scored (count_paths (similar_movie_paths g id));
      Ok ((λ row, {["movie" := VMap (similar_projection favorites row)]})
            <$> window skip limit (by_score rows))
  | UserFavorites =>
      userId ← param ps "userId";
      Ok (u ← labelled g "User" "userId" userId;
          '(_, m) ← outgoing g ["HAS_FAVORITE"] u;
          [{["id" := prop m "tmdbId"]}])
  | PeopleAll sort o =>
      q ← param ps "q";
      skip ← param_count ps "skip";
      limit ← param_count ps "limit";
      kept ← filter_result (name_filter q) (all_people g);
      Ok ((λ p, {["person" := VMap (node_props p)]})
            <$> window skip limit (ordered o (λ p, prop p sort) kept))
  | PersonById =>
      id ← param ps "id";
      Ok ((λ p, {["person" := VMap (person_detail g p)]})
            <$> labelled g "Person" "tmdbId" id)
  | PeopleSimilar =>
      id ← param ps "id";
      skip ← param_count ps "skip";
      limit ← param_count ps "limit";
      Ok ((λ person, {["person" := VMap person]})
            <$> window skip limit
                  (by_in_common
                     (similar_person g <$> collect_by_person (similar_people_paths g id))))
  end.

(** ** Sessions and transactions

    A session answers the statements run on it and may fail to close.  A
    transaction function is a computation that threads the log of what it
    has submitted: the text of every statement with its parameter map. *)

Record Session := {
  respond : Statement → Params → result (list DbRecord);
  close_error : option error
}.

(** A store that holds the graph [g], answers every statement and closes
    without error. *)
Definition neo4j (g : Graph) : Session :=
  {| respond := eval g; close_error := None |}.

Definition Log : Type := list (string * Params).

Definition Tx (A : Type) : Type := Log → result A * Log.

#[global] Instance tx_ret : MRet Tx := λ A a log, (Ok a, log).
#[global] Instance tx_bind : MBind Tx :=
  λ A B f m log,
    match m log with
    | (Ok a, log') => f a log'
    | (Err e, log') => (Err e, log')
    end.

Definition lift {A} (r : result A) : Tx A := λ log, (r, log).

(** [tx.Run(text, params)] followed by reading the records; the text and the
    parameters go to the log. *)
Definition Run (tx : Session) (st : Statement) (ps : Params) : Tx (list DbRecord) :=
  λ log, (respond tx st ps, log ++ [(cypher st, ps)]).

(** [record.Get(key)], the value alone. *)
Definition Get (record : DbRecord) (key : string) : value :=
  default VNull (record !! key).

(** [v.(map[string]interface{})] and [v.(string)] *)
Definition as_map (v : value) : result (gmap string value) :=
  match v with
  | VMap m => Ok m
  | _ => Err (Panic "interface conversion: not a map")
  end.

Definition as_string (v : value) : result string :=
  match v with
  | VStr s => Ok s
  | _ => Err (Panic "interface conversion: not a string")
  end.

(** [result.Single()] *)
Definition Single (records : list DbRecord) : result DbRecord :=
  match records with
  | [] => Err NotFound
  | [record] => Ok record
  | _ => Err NotSingle
  end.

(** The loop [for _, record := range records] of the list operations. *)
Definition collect (key : string) (records : list DbRecord) : result (list (gmap string value)) :=
  traverse (λ record, as_map (Get record key)) records.

(** Modelled from the spec: [ioutils.DeferredClose] of [pkg/ioutils]: the
    session is released on every path, and an error of the call is
    propagated unchanged. *)
Definition DeferredClose (closed previous : option error) : option error :=
  match previous with
  | Some e => Some e
  | None => closed
  end.

(** [session := driver.NewSession(...)], [defer DeferredClose(session, err)]
    and the body of the method, run on a fresh log. *)
Definition with_session {A} (session : Session) (body : Tx A) : result A * Log :=
  let '(r, log) := body [] in
  (match DeferredClose (close_error session) (error_of r) with
   | Some e => Err e
   | None => r
   end, log).

Definition ReadTransaction {A} (session : Session) (work : Session → Tx A) : Tx A :=
  work session.

Definition strings (l : list string) : value := VList (VStr <$> l).

Definition getUserFavorites (tx : Session) (userId : string) : Tx (list string) :=
  if decide (userId = EmptyString) then mret []
  else
    records ← Run tx UserFavorites (<["userId" := VStr userId]> ∅);
    lift (traverse (λ record, as_string (Get record "id")) records).

Module MovieService.

Definition list_params (page : Paging) (favorites : list string) : Params :=
  <["skip" := VInt (Skip page)]>
  (<["limit" := VInt (Limit page)]>
  (<["favorites" := strings favorites]> ∅)).

Definition genre_params (genre : string) (page : Paging) (favorites : list string) : Params :=
  <["name" := VStr genre]> (list_params page favorites).

(** The parameters of [FindAllByActorId], [FindAllByDirectorId] and
    [FindAllBySimilarity]. *)
Definition id_params (id : string) (page : Paging) (favorites : list string) : Params :=
  <["id" := VStr id]> (list_params page favorites).

Definition detail_params (id : string) (favorites : list string) : Params :=
  <["id" := VStr id]> (<["favorites" := strings favorites]> ∅).

(** The body shared, line for line, by the four list methods that end in
    [fixtures.Slice]. *)
Definition sliced_list (session : Session) (st : Statement)
    (ps : list string → Params) (userId : string) (page : Paging) :
    result (list Movie) * Log :=
  with_session session (
    results ← ReadTransaction session (λ tx,
      favorites ← getUserFavorites tx userId;
      records ← Run tx st (ps favorites);
      lift (collect "movie" records));
    mret (Slice results (Skip page) (Limit page))).

Definition FindAll (session : Session) (userId : string) (page : Paging) :
    result (list Movie) * Log :=
  sliced_list session (MoviesAll (Sort page) (Order page))
    (list_params page) userId page.

Definition FindAllByGenre (session : Session) (genre userId : string) (page : Paging) :
    result (list Movie) * Log :=
  sliced_list session (MoviesByGenre (Sort page) (Order page))
    (genre_params genre page) userId page.

Definition FindAllByActorId (session : Session) (actorId userId : string) (page : Paging) :
    result (list Movie) * Log :=
  sliced_list session (MoviesByActor (Sort page) (Order page))
    (id_params actorId page) userId page.

Definition FindAllByDirectorId (session : Session) (actorId userId : string) (page : Paging) :
    result (list Movie) * Log :=
  sliced_list session (MoviesByDirector (Sort page) (Order page))
    (id_params actorId page) userId page.

Definition FindOneById (session : Session) (id userId : string) : result Movie * Log :=
  with_session session (
    result ← ReadTransaction session (λ tx,
      favorites ← getUserFavorites tx userId;
      records ← Run tx MovieById (detail_params id favorites);
      record ← lift (Single records);
      mret (Get record "movie"));
    lift (as_map result)).

Definition FindAllBySimilarity (session : Session) (id userId : string) (page : Paging) :
    result (list Movie) * Log :=
  with_session session (
    ReadTransaction session (λ tx,
      favorites ← getUserFavorites tx userId;
      records ← Run tx MoviesSimilar (id_params id page favorites);
      lift (collect "movie" records))).

End MovieService.

Module PeopleService.

Definition q_param (page : Paging) : value :=
  match Query page with
  | Some q => VStr q
  | None => VNull
  end.

Definition list_params (page : Paging) : Params :=
  <["q" := q_param page]>
  (<["skip" := VInt (Skip page)]>
  (<["limit" := VInt (Limit page)]> ∅)).

Definition detail_params (id : string) : Params := <["id" := VStr id]> ∅.

Definition similar_params (id : string) (page : Paging) : Params :=
  <["id" := VStr id]>
  (<["skip" := VInt (Skip page)]>
  (<["limit" := VInt (Limit page)]> ∅)).

Definition FindAll (session : Session) (page : Paging) : result (list Person) * Log :=
  with_session session (
    ReadTransaction session (λ tx,
      records ← Run tx (PeopleAll (Sort page) (Order page)) (list_params page);
      lift (collect "person" records))).

Definition FindOneById (session : Session) (id : string) : result Person * Log :=
  with_session session (
    ReadTransaction session (λ tx,
      records ← Run tx PersonById (detail_params id);
      record ← lift (Single records);
      lift (as_map (Get record "person")))).

Definition FindAllBySimilarity (session : Session) (id : string) (page : Paging) :
    result (list Person) * Log :=
  with_session session (
    ReadTransaction session (λ tx,
      records ← Run tx PeopleSimilar (similar_params id page);
      lift (collect "person" records))).

End PeopleService.

(** ** The four movie lists *)

Inductive Listing :=
| Everything
| InGenre (genre : string)
| WithActor (actorId : string)
| WithDirector (actorId : string).

Definition list_movies (session : Session) (l : Listing) (userId : string)
    (page : Paging) : result (list Movie) * Log :=
  match l with
  | Everything => MovieService.FindAll session userId page
  | InGenre genre => MovieService.FindAllByGenre session genre userId page
  | WithActor actorId => MovieService.FindAllByActorId session actorId userId page
  | WithDirector actorId => MovieService.FindAllByDirectorId session actorId userId page
  end.

(** The statement and the parameters each list submits. *)
Definition listing_statement (l : Listing) (page : Paging) : Statement :=
  match l with
  | Everything => MoviesAll (Sort page) (Order page)
  | InGenre _ => MoviesByGenre (Sort page) (Order page)
  | WithActor _ => MoviesByActor (Sort page) (Order page)
  | WithDirector _ => MoviesByDirector (Sort page) (Order page)
  end.

Definition listing_params (l : Listing) (page : Paging) (favorites : list string) : Params :=
  match l with
  | Everything => MovieService.list_params page favorites
  | InGenre genre => MovieService.genre_params genre page favorites
  | WithActor actorId => MovieService.id_params actorId page favorites
  | WithDirector actorId => MovieService.id_params actorId page favorites
  end.

(** The rows of the [MATCH] clause of each list. *)
Definition pattern_matches (g : Graph) (l : Listing) : list Node :=
  match l with
  | Everything => all_movies g
  | InGenre genre => movies_in_genre g (VStr genre)
  | WithActor actorId => movies_of_person g "ACTED_IN" (VStr actorId)
  | WithDirector actorId => movies_of_person g "DIRECTED" (VStr actorId)
  end.

(** The page the store sends back: the window of the ordered matches. *)
Definition store_page (g : Graph) (l : Listing) (page : Paging)
    (favorites : list string) : list Movie :=
  movie_projection (VStr <$> favorites)
    <$> window (Z.to_nat (Skip page)) (Z.to_nat (Limit page))
          (movie_matches (Sort page) (Order page) (pattern_matches g l)).

(** ** Sample stores *)

Definition node (id : nat) (label : string) (props : list (string * value)) : Node :=
  {| node_id := id; node_labels := [label]; node_props := list_to_map props |}.

Definition rel (id start : nat) (type : string) (target : nat) : Rel :=
  {| rel_id := id; rel_start := start; rel_type := type; rel_end := target;
     rel_props := ∅ |}.

Definition paging (sort : string) (o : Direction) (skip limit : Z) : Paging :=
  {| Sort := sort; Order := o; Skip := skip; Limit := limit; Query := None |}.

(** Four movies of one genre, two people credited on the first two, and a
    user who has the second movie as a favorite. *)
Definition catalogue : Graph := {|
  nodes :=
    [ node 1 "Movie" [("tmdbId", VStr "1"); ("title", VStr "Alpha");
                      ("imdbRating", VFloat (80 # 10))];
      node 2 "Movie" [("tmdbId", VStr "2"); ("title", VStr "Beta");
                      ("imdbRating", VFloat (70 # 10))];
      node 3 "Movie" [("tmdbId", VStr "3"); ("title", VStr "Gamma");
                      ("imdbRating", VFloat (90 # 10))];
      node 4 "Movie" [("tmdbId", VStr "4"); ("title", VStr "Delta")];
      node 10 "Genre" [("name", VStr "Action")];
      node 20 "Person" [("tmdbId", VStr "p1"); ("name", VStr "Ann Lee")];
      node 21 "Person" [("tmdbId", VStr "p2"); ("name", VStr "Bob Ray")];
      node 30 "User" [("userId", VStr "u1")] ];
  rels :=
    [ rel 100 1 "IN_GENRE" 10; rel 101 2 "IN_GENRE" 10;
      rel 102 3 "IN_GENRE" 10; rel 103 4 "IN_GENRE" 10;
      rel 110 20 "ACTED_IN" 1; rel 111 20 "ACTED_IN" 2;
      rel 112 21 "ACTED_IN" 1; rel 113 21 "DIRECTED" 2;
      rel 120 30 "HAS_FAVORITE" 2 ]
|}.

(** ** The favorite flag of a returned movie *)

(** The flag is true exactly for the favorites of the call, and false for
    every movie of an anonymous call. *)
Definition favorite_flagged (userId : string) (favorites : list string)
    (m : Movie) : Prop :=
  (m !! "favorite" = Some (VBool true)
   ↔ ∃ tmdbId, m !! "tmdbId" = Some (VStr tmdbId) ∧ tmdbId ∈ favorites)
  ∧ (userId = EmptyString → m !! "favorite" = Some (VBool false)).

Definition titles (r : result (list Movie)) : result (list (option value)) :=
  match r with
  | Ok movies => Ok ((λ m : Movie, m !! "title") <$> movies)
  | Err e => Err e
  end.

(** Two rated movies with the same actor and the same director and no genre:
    the actor and the director point to the movies, as in the patterns of
    [FindAllByActorId], [FindAllByDirectorId] and [FindOneById]. *)
Definition shared_cast : Graph := {|
  nodes :=
    [ node 1 "Movie" [("tmdbId", VStr "1"); ("title", VStr "Alpha");
                      ("imdbRating", VFloat (80 # 10))];
      node 2 "Movie" [("tmdbId", VStr "2"); ("title", VStr "Beta");
                      ("imdbRating", VFloat (70 # 10))];
      node 20 "Person" [("tmdbId", VStr "p1"); ("name", VStr "Ann Lee")];
      node 21 "Person" [("tmdbId", VStr "p2"); ("name", VStr "Bob Ray")] ];
  rels :=
    [ rel 110 20 "ACTED_IN" 1; rel 111 20 "ACTED_IN" 2;
      rel 112 21 "DIRECTED" 1; rel 113 21 "DIRECTED" 2 ]
|}.

(** ** Similar people *)

(** The people who share a title with the person [id], each with the shared
    titles collected, before ordering. *)
Definition similar_people (g : Graph) (id : string) : list Person :=
  similar_person g <$> collect_by_person (similar_people_paths g (VStr id)).

(** One path of the pattern of similar people that ends in [p], read off the
    store hop by hop: a person [s] with the identifier [id] holds the credit
    [r1] on the title [m], and [p] holds another credit [r] on [m]. *)
Definition credit_path (g : Graph) (id : string) (p : Node) (r1 : Rel) (m : Node)
    (r : Rel) : Prop :=
  ∃ s, s ∈ nodes g ∧ has_label "Person" s = true ∧ prop s "tmdbId" = VStr id
       ∧ r1 ∈ rels g ∧ rel_start r1 = node_id s
       ∧ rel_type r1 ∈ ["ACTED_IN"; "DIRECTED"]
       ∧ find_node g (rel_end r1) = Some m
       ∧ r ∈ rels g ∧ rel_end r = node_id m
       ∧ rel_type r ∈ ["ACTED_IN"; "DIRECTED"]
       ∧ find_node g (rel_start r) = Some p
       ∧ rel_id r1 ≠ rel_id r.

(** [p] shares the title [m] with the person [id] through the credit [r]. *)
Definition shares_title (g : Graph) (id : string) (p m : Node) (r : Rel) : Prop :=
  ∃ r1, credit_path g id p r1 m r.

(** The rows of [similar_people_paths] with the credit of the source kept. *)
Definition credit_paths (g : Graph) (id : value) : list (Node * (Rel * (Node * Rel))) :=
  s ← labelled g "Person" "tmdbId" id;
  '(r1, m) ← outgoing g credit_types s;
  '(r, p) ← incoming g credit_types m;
  if negb (Nat.eqb (rel_id r1) (rel_id r)) then [(p, (r1, (m, r)))] else [].

(** No two nodes and no two relationships of the store have the same id. *)
Definition unique_ids (g : Graph) : Prop :=
  NoDup (node_id <$> nodes g) ∧ NoDup (rel_id <$> rels g).

(** [shared] collects every title that [p] shares with the person [id]:
    it holds the pairs [(m, r)] of the paths that end in [p] and no other
    pair, one for every path; on a store with unique ids no path is taken
    twice. *)
Definition collects (g : Graph) (id : string) (p : Node) (shared : list (Node * Rel)) : Prop :=
  (∀ m r, (m, r) ∈ shared ↔ shares_title g id p m r)
  ∧ ∃ via : list (Rel * (Node * Rel)),
      shared = snd <$> via
      ∧ (∀ r1 m r, (r1, (m, r)) ∈ via ↔ credit_path g id p r1 m r)
      ∧ (unique_ids g → NoDup via).

(** [person] is the entity returned for the node [p] with the shared titles
    [shared]: it has the properties of [p], and its [inCommon] is the list of
    the entries of [shared], in their order. *)
Definition person_with_titles (p : Node) (shared : list (Node * Rel)) (person : Person) : Prop :=
  (∀ k, k ∉ ["actedCount"; "directedCount"; "inCommon"] → person !! k = node_props p !! k)
  ∧ person !! "inCommon" = Some (VList (shared_title <$> shared))
  ∧ in_common_size person = length shared.

(** The entry of [inCommon] for the title [m] shared through [r] has the
    keys [tmdbId], [title] and [type] and no other. *)
Definition title_entry (m : Node) (r : Rel) (v : value) : Prop :=
  ∃ entry, v = VMap entry
           ∧ entry !! "tmdbId" = Some (prop m "tmdbId")
           ∧ entry !! "title" = Some (prop m "title")
           ∧ entry !! "type" = Some (VStr (rel_type r))
           ∧ ∀ k, k ∉ ["tmdbId"; "title"; "type"] → entry !! k = None.

Definition by_size_desc (a b : Person) : Prop := in_common_size b ≤ in_common_size a.

(** The [name] of every returned person. *)
Definition names (r : result (list Person)) : result (list (option value)) :=
  match r with
  | Ok people => Ok ((λ p : Person, p !! "name") <$> people)
  | Err e => Err e
  end.

(** The records a store with the sample catalogue answers for the movies
    similar to the first one. *)
Definition sample_similar_records : list DbRecord :=
  match eval catalogue MoviesSimilar
          (MovieService.id_params "1" (paging "title" ASC 0 2) ["2"]) with
  | Ok records => records
  | Err _ => []
  end.

Definition map_of (v : value) : gmap string value :=
  match v with
  | VMap m => m
  | _ => ∅
  end.

(** ** Submitted statements *)

(** The entry of the log carries the text [text] and binds every name of
    [binds] to its value. *)
Definition submitted_as (text : string) (binds : list (string * value))
    (entry : string * Params) : Prop :=
  entry.1 = text ∧ Forall (λ kv, entry.2 !! kv.1 = Some kv.2) binds.

Definition favorites_lookup (userId : string) (entry : string * Params) : Prop :=
  submitted_as text_UserFavorites [("userId", VStr userId)] entry.

(** The bindings every paginated movie statement has. *)
Definition paged (page : Paging) (favorites : list string) : list (string * value) :=
  [("skip", VInt (Skip page)); ("limit", VInt (Limit page));
   ("favorites", strings favorites)].

(** ** The name filter of people *)

(** The person [p] passes the filter of [FindAll] for the query [q]. *)
Definition included (q : option string) (p : Node) : bool :=
  match q with
  | None => true
  | Some s =>
      match prop p "name" with
      | VStr name => contains (toLower name) (toLower s)
      | _ => false
      end
  end.

Definition string_or_null (v : value) : bool :=
  match v with
  | VStr _ | VNull => true
  | _ => false
  end.

(** Every person of the store has a string for a name, or no name. *)
Definition names_are_strings (g : Graph) : bool :=
  forallb (λ p, string_or_null (prop p "name")) (all_people g).

(** ** Two stores with the same data *)

(** Two people who each share one title with a third; the two stores hold
    the same nodes and relationships and enumerate the relationships in a
    different order. *)
Definition troupe_nodes : list Node :=
  [ node 1 "Movie" [("tmdbId", VStr "1"); ("title", VStr "Alpha")];
    node 20 "Person" [("tmdbId", VStr "p0"); ("name", VStr "Zoe")];
    node 21 "Person" [("tmdbId", VStr "p1"); ("name", VStr "Ann")];
    node 22 "Person" [("tmdbId", VStr "p2"); ("name", VStr "Bob")] ].

Definition troupe : Graph := {|
  nodes := troupe_nodes;
  rels := [ rel 110 20 "ACTED_IN" 1; rel 111 21 "ACTED_IN" 1; rel 112 22 "ACTED_IN" 1 ]
|}.


(** Zoe is credited on three titles; Ann shares one of them with her, Bob
    all three and Cy two. The store lists the credit of Ann first. *)
Definition ensemble : Graph := {|
  nodes :=
    [ node 1 "Movie" [("tmdbId", VStr "1"); ("title", VStr "Alpha")];
      node 2 "Movie" [("tmdbId", VStr "2"); ("title", VStr "Beta")];
      node 3 "Movie" [("tmdbId", VStr "3"); ("title", VStr "Gamma")];
      node 20 "Person" [("tmdbId", VStr "p0"); ("name", VStr "Zoe")];
      node 21 "Person" [("tmdbId", VStr "p1"); ("name", VStr "Ann")];
      node 22 "Person" [("tmdbId", VStr "p2"); ("name", VStr "Bob")];
      node 23 "Person" [("tmdbId", VStr "p3"); ("name", VStr "Cy")] ];
  rels :=
    [ rel 110 20 "ACTED_IN" 1; rel 111 20 "ACTED_IN" 2; rel 112 20 "DIRECTED" 3;
      rel 113 21 "ACTED_IN" 1;
      rel 114 22 "ACTED_IN" 1; rel 115 22 "DIRECTED" 2; rel 116 22 "ACTED_IN" 3;
      rel 117 23 "ACTED_IN" 1; rel 118 23 "ACTED_IN" 2 ]
|}.

(** The size of [inCommon] of every returned person. *)
Definition sizes (r : result (list Person)) : result (list nat) :=
  match r with
  | Ok people => Ok (in_common_size <$> people)
  | Err e => Err e
  end.

(** The title and the type of every entry of [inCommon] of every returned
    person. *)
Definition shared_entries (r : result (list Person)) : result (list (list (value * value))) :=
  match r with
  | Ok people =>
      Ok ((λ person : Person,
             match person !! "inCommon" with
             | Some (VList l) =>
                 (λ v, match v with
                       | VMap entry =>
                           (default VNull (entry !! "title"),
                            default VNull (entry !! "type"))
                       | _ => (VNull, VNull)
                       end) <$> l
             | _ => []
             end) <$> people)
  | Err e => Err e
  end.


(** ** Scores of similar movies *)

(** The number a numeric value stands for. *)
Definition number (v : value) : Q := default 0%Q (num_of v).

Definition score (m : Movie) : value := default VNull (m !! "score").

(** [b] does not score higher than [a]. *)
Definition by_score_desc (a b : Movie) : Prop :=
  (number (score b) <= number (score a))%Q.

(** [m] is the projection of a node that has a rating and lies on [inCommon]
    paths of the similarity pattern, and its score is the product of the two. *)
Definition scored_candidate (g : Graph) (id : string) (m : Movie) : Prop :=
  ∃ (n : Node) (inCommon : nat),
    n ∈ similar_movie_paths g (VStr id)
    ∧ prop n "imdbRating" ≠ VNull
    ∧ inCommon = length (List.filter (same_node n) (similar_movie_paths g (VStr id)))
    ∧ cypher_mul (prop n "imdbRating") inCommon = Ok (score m)
    ∧ m !! "tmdbId" = node_props n !! "tmdbId".

(** ** Order of the returned rows *)

(** [a] comes no later than [b] under [ORDER BY ... o]. *)
Definition in_order (o : Direction) (a b : value) : Prop :=
  match o with
  | ASC => value_leb a b = true
  | DESC => value_leb b a = true
  end.

(** One hop of the graph: a relationship of type [type] from [a] whose end
    resolves to [b]. *)
Definition edge (g : Graph) (type : string) (a b : Node) : Prop :=
  ∃ r, r ∈ rels g ∧ rel_type r = type ∧ rel_start r = node_id a
       ∧ find_node g (rel_end r) = Some b.

(** The node [n] is matched by the pattern of the list [l]. *)
Definition matches_listing (g : Graph) (l : Listing) (n : Node) : Prop :=
  n ∈ nodes g ∧ has_label "Movie" n = true ∧
  match l with
  | Everything => True
  | InGenre genre =>
      ∃ x, edge g "IN_GENRE" n x ∧ has_label "Genre" x = true
           ∧ prop x "name" = VStr genre
  | WithActor actorId =>
      ∃ p, p ∈ nodes g ∧ has_label "Person" p = true
           ∧ prop p "tmdbId" = VStr actorId ∧ edge g "ACTED_IN" p n
  | WithDirector actorId =>
      ∃ p, p ∈ nodes g ∧ has_label "Person" p = true
           ∧ prop p "tmdbId" = VStr actorId ∧ edge g "DIRECTED" p n
  end.

(** ** What a call submits *)

(** The favorites lookup of [getUserFavorites]: its text and its parameters. *)
Definition favorites_request (userId : string) : string * Params :=
  (text_UserFavorites, <["userId" := VStr userId]> ∅).

(** The entries [getUserFavorites] adds to the log: none for the empty user
    identifier. *)
Definition lookup_log (userId : string) : Log :=
  if decide (userId = EmptyString) then [] else [favorites_request userId].

(** The record has no map under [key]: the key is missing, or bound to a
    value of another type. *)
Definition malformed (key : string) (record : DbRecord) : Prop :=
  ∀ m, record !! key ≠ Some (VMap m).

(** ** Sample sessions *)

(** A store that fails every statement. *)
Definition unavailable : Session :=
  {| respond := λ _ _, Err (QueryFailure "unavailable"); close_error := None |}.

(** A store that answers every statement with one record without fields. *)
Definition garbled : Session :=
  {| respond := λ _ _, Ok [∅]; close_error := None |}.

(** A user whose only favorite has no [tmdbId]. *)
Definition stray_favorite : Graph := {|
  nodes := [ node 1 "Movie" [("title", VStr "Alpha")];
             node 30 "User" [("userId", VStr "u1")] ];
  rels := [ rel 120 30 "HAS_FAVORITE" 1 ]
|}.

(** [m] is a favorite of the user [userId]. *)
Definition favorite_of (g : Graph) (userId : string) (m : Node) : Prop :=
  ∃ u, u ∈ nodes g ∧ has_label "User" u = true ∧ prop u "userId" = VStr userId
       ∧ edge g "HAS_FAVORITE" u m.

(** ** Relationships of a node *)

(** The relationships of type [type] that end in [n], and those that leave it. *)
Definition relationships_into (g : Graph) (type : string) (n : Node) : list Rel :=
  List.filter (λ r, Nat.eqb (rel_end r) (node_id n) && String.eqb (rel_type r) type)
    (rels g).

Definition relationships_from (g : Graph) (type : string) (n : Node) : list Rel :=
  List.filter (λ r, Nat.eqb (rel_start r) (node_id n) && String.eqb (rel_type r) type)
    (rels g).

(** Both ends of every relationship are nodes of the graph. *)
Definition ends_exist (g : Graph) : bool :=
  forallb (λ r, match find_node g (rel_start r), find_node g (rel_end r) with
                | Some _, Some _ => true
                | _, _ => false
                end) (rels g).

(** The keys the projection of [FindOneById] on movies computes. *)
Definition computed_movie_keys : list string :=
  ["actors"; "directors"; "genres"; "ratingCount"; "favorite"].

(** Two people with the same [tmdbId]. *)
Definition namesakes : Graph := {|
  nodes := [ node 20 "Person" [("tmdbId", VStr "p1"); ("name", VStr "Ann Lee")];
             node 21 "Person" [("tmdbId", VStr "p1"); ("name", VStr "Ann Lee")] ];
  rels := []
|}.

(** ** Identifiers *)

(** The [tmdbId] of an entity, when it is a string. *)
Definition tmdb_id (entity : gmap string value) : option string :=
  match entity !! "tmdbId" with
  | Some (VStr s) => Some s
  | _ => None
  end.

(** No two nodes of the graph carry the same [tmdbId]. *)
Definition ids_identify (g : Graph) : bool :=
  forallb (λ a,
    forallb (λ b,
      match tmdb_id (node_props a), tmdb_id (node_props b) with
      | Some s, Some t => negb (String.eqb s t) || Nat.eqb (node_id a) (node_id b)
      | _, _ => true
      end) (nodes g)) (nodes g).

(** ** The pattern of similar movies, hop by hop *)

(** The source movie [id] and the node [n] both have a relationship of one
    of the three types that leaves them and ends in the same node [x]; the
    two relationships are distinct. *)
Definition common_target (g : Graph) (id : string) (n : Node) : Prop :=
  ∃ s x r1 r2,
    s ∈ nodes g ∧ has_label "Movie" s = true ∧ prop s "tmdbId" = VStr id
    ∧ r1 ∈ rels g ∧ rel_start r1 = node_id s ∧ has_type connection_types r1 = true
    ∧ find_node g (rel_end r1) = Some x
    ∧ r2 ∈ rels g ∧ rel_end r2 = node_id x ∧ has_type connection_types r2 = true
    ∧ find_node g (rel_start r2) = Some n
    ∧ rel_id r1 ≠ rel_id r2.

(** ** Entities without their favorite flag *)

Definition unflagged (movies : list Movie) : list Movie :=
  delete "favorite" <$> movies.


(** ** Facts about sorting and windows *)

Section SortingFacts.
Context {A : Type} (leb : A → A → bool).

Lemma insert_by_perm (x : A) (l : list A) : insert_by leb x l ≡ₚ x :: l.
Proof.
  induction l as [|y l IH]; simpl; [done|].
  destruct (leb x y); [done|].
  rewrite IH. apply perm_swap.
Qed.

Lemma sort_by_perm (l : list A) : sort_by leb l ≡ₚ l.
Proof.
  induction l as [|x l IH]; simpl; [done|].
  by rewrite insert_by_perm, IH.
Qed.



Hypothesis leb_total : ∀ a b, leb a b = true ∨ leb b a = true.
Hypothesis leb_trans : ∀ a b c, leb a b = true → leb b c = true → leb a c = true.

Lemma insert_by_sorted (x : A) (l : list A) :
  StronglySorted (λ a b, leb a b = true) l →
  StronglySorted (λ a b, leb a b = true) (insert_by leb x l).
Proof.
  induction 1 as [|y l Hl IH Hy]; simpl.
  - repeat constructor.
  - destruct (leb x y) eqn:Hxy.
    + constructor; [by constructor|].
      constructor; [done|].
      eapply Forall_impl; [exact Hy|]. intros z Hz. by eapply leb_trans.
    + constructor; [done|].
      rewrite insert_by_perm. constructor; [|done].
      destruct (leb_total x y); congruence.
Qed.

Lemma sort_by_sorted (l : list A) :
  StronglySorted (λ a b, leb a b = true) (sort_by leb l).
Proof.
  induction l; simpl; [constructor|by apply insert_by_sorted].
Qed.
End SortingFacts.

Lemma StronglySorted_sublist {A} (R : relation A) (k l : list A) :
  k `sublist_of` l → StronglySorted R l → StronglySorted R k.
Proof.
  induction 1 as [|x k l Hkl IH|x k l Hkl IH]; intros Hl.
  - constructor.
  - apply StronglySorted_inv in Hl as [Hl Hx].
    constructor; [by apply IH|].
    rewrite Forall_forall in Hx |- *.
    intros y Hy. apply Hx. by eapply elem_of_sublist.
  - apply StronglySorted_inv in Hl as [Hl _]. by apply IH.
Qed.

Lemma window_sublist {A} (skip limit : nat) (rows : list A) :
  window skip limit rows `sublist_of` rows.
Proof.
  unfold window. etrans; [apply sublist_take|apply sublist_drop].
Qed.

Lemma window_sorted {A} (R : relation A) (skip limit : nat) (rows : list A) :
  StronglySorted R rows → StronglySorted R (window skip limit rows).
Proof. apply StronglySorted_sublist, window_sublist. Qed.

Lemma window_length {A} (skip limit : nat) (rows : list A) :
  length (window skip limit rows) ≤ limit.
Proof. unfold window. rewrite length_take. lia. Qed.

Lemma fmap_window {A B} (f : A → B) (skip limit : nat) (rows : list A) :
  f <$> window skip limit rows = window skip limit (f <$> rows).
Proof. unfold window. by rewrite fmap_take, fmap_drop. Qed.

(** Two consecutive windows are the two halves of a longer one. *)
Lemma window_next {A} (skip limit : nat) (rows : list A) :
  window skip limit rows ++ window (skip + limit) limit rows
  = window skip (limit + limit) rows.
Proof.
  unfold window. rewrite <- drop_drop. apply take_take_drop.
Qed.

(** The client-side slice of a page that is already a window:
    it drops [skip] rows once more. *)
Lemma Slice_of_page {A} (page : list A) (skip limit : Z) :
  length page ≤ Z.to_nat limit →
  Slice page skip limit = drop (Z.to_nat skip) page.
Proof.
  intros Hlen. unfold Slice. apply take_ge. rewrite length_drop. lia.
Qed.

(** ** Facts about patterns *)

Lemma elem_of_filterb {A} (f : A → bool) (x : A) (l : list A) :
  x ∈ List.filter f l ↔ x ∈ l ∧ f x = true.
Proof. by rewrite !list_elem_of_In, filter_In. Qed.

Lemma elem_of_outgoing (g : Graph) (types : list string) (n : Node) (r : Rel) (x : Node) :
  (r, x) ∈ outgoing g types n
  ↔ r ∈ rels g ∧ rel_start r = node_id n ∧ has_type types r = true
    ∧ find_node g (rel_end r) = Some x.
Proof.
  unfold outgoing. rewrite list_elem_of_bind. split.
  - intros (r' & Hx & Hr'). apply elem_of_filterb in Hr' as [Hin Hr'].
    apply andb_prop in Hr' as [Hstart Htype]. apply Nat.eqb_eq in Hstart.
    apply list_elem_of_bind in Hx as (x' & Hx & Hfind).
    apply list_elem_of_singleton in Hx as [= <- <-].
    destruct (find_node g (rel_end r)) eqn:Hf; simpl in Hfind;
      [apply list_elem_of_singleton in Hfind as ->|by apply elem_of_nil in Hfind].
    done.
  - intros (Hin & Hstart & Htype & Hfind). exists r. split.
    + apply list_elem_of_bind. exists x. rewrite Hfind. simpl.
      split; by apply list_elem_of_singleton.
    + apply elem_of_filterb. split; [done|].
      apply andb_true_intro. split; [by apply Nat.eqb_eq|done].
Qed.

Lemma elem_of_incoming (g : Graph) (types : list string) (n : Node) (r : Rel) (x : Node) :
  (r, x) ∈ incoming g types n
  ↔ r ∈ rels g ∧ rel_end r = node_id n ∧ has_type types r = true
    ∧ find_node g (rel_start r) = Some x.
Proof.
  unfold incoming. rewrite list_elem_of_bind. split.
  - intros (r' & Hx & Hr'). apply elem_of_filterb in Hr' as [Hin Hr'].
    apply andb_prop in Hr' as [Hend Htype]. apply Nat.eqb_eq in Hend.
    apply list_elem_of_bind in Hx as (x' & Hx & Hfind).
    apply list_elem_of_singleton in Hx as [= <- <-].
    destruct (find_node g (rel_start r)) eqn:Hf; simpl in Hfind;
      [apply list_elem_of_singleton in Hfind as ->|by apply elem_of_nil in Hfind].
    done.
  - intros (Hin & Hend & Htype & Hfind). exists r. split.
    + apply list_elem_of_bind. exists x. rewrite Hfind. simpl.
      split; by apply list_elem_of_singleton.
    + apply elem_of_filterb. split; [done|].
      apply andb_true_intro. split; [by apply Nat.eqb_eq|done].
Qed.

Lemma distinct_nodes_subseteq (l : list Node) (n : Node) :
  n ∈ distinct_nodes l → n ∈ l.
Proof.
  induction l as [|x l IH]; simpl; [done|].
  rewrite !elem_of_cons, elem_of_filterb.
  intros [->|[Hn _]]; [by left|right; by apply IH].
Qed.

Lemma StronglySorted_impl {A} (R1 R2 : relation A) (l : list A) :
  (∀ x y, R1 x y → R2 x y) → StronglySorted R1 l → StronglySorted R2 l.
Proof.
  intros HR Hl. rewrite <- (list_fmap_id l). by eapply StronglySorted_fmap.
Qed.

(** ** Facts about transactions *)

Lemma traverse_fmap {A B C} (f : A → C) (h : C → result B) (k : A → B) (l : list A) :
  (∀ x, h (f x) = Ok (k x)) → traverse h (f <$> l) = Ok (k <$> l).
Proof.
  intros Hk. induction l as [|x l IH]; [done|].
  rewrite fmap_cons. simpl. rewrite Hk. simpl. rewrite IH. done.
Qed.

Lemma collect_fmap {X} (key : string) (f : X → gmap string value) (l : list X) :
  collect key ((λ x, {[key := VMap (f x)]}) <$> l) = Ok (f <$> l).
Proof.
  apply (traverse_fmap _ (λ record, as_map (Get record key))).
  intros x. unfold Get. by rewrite lookup_singleton_eq.
Qed.

Lemma collect_Forall2 (key : string) (records : list DbRecord)
    (maps : list (gmap string value)) :
  Forall2 (λ record m, record !! key = Some (VMap m)) records maps →
  collect key records = Ok maps.
Proof.
  unfold collect, Get. induction 1 as [|r m rs ms Hr _ IH]; simpl; [done|].
  rewrite Hr. simpl. by rewrite IH.
Qed.

(** An anonymous caller: the empty list, and no statement is run. *)
Lemma getUserFavorites_anonymous (tx : Session) (log : Log) :
  getUserFavorites tx EmptyString log = (Ok [], log).
Proof. done. Qed.

(** The favorites do not depend on what was run before. *)
Lemma getUserFavorites_frame (tx : Session) (userId : string) (log : Log) :
  getUserFavorites tx userId log
  = ((getUserFavorites tx userId []).1, log ++ (getUserFavorites tx userId []).2).
Proof.
  unfold getUserFavorites. destruct (decide (userId = EmptyString)).
  - simpl. by rewrite app_nil_r.
  - unfold mbind, tx_bind, Run, lift. simpl.
    by destruct (respond tx UserFavorites _).
Qed.

Lemma sliced_list_ok (s : Session) (st : Statement) (ps : list string → Params)
    (userId : string) (page : Paging) (favorites : list string)
    (records : list DbRecord) (movies : list Movie) :
  (getUserFavorites s userId []).1 = Ok favorites →
  respond s st (ps favorites) = Ok records →
  collect "movie" records = Ok movies →
  close_error s = None →
  (MovieService.sliced_list s st ps userId page).1
  = Ok (Slice movies (Skip page) (Limit page)).
Proof.
  intros Hfav Hrun Hcollect Hclose.
  unfold MovieService.sliced_list, with_session, ReadTransaction.
  unfold mbind, tx_bind, Run, lift.
  rewrite getUserFavorites_frame, Hfav, Hrun, Hcollect. simpl.
  by rewrite Hclose.
Qed.

Lemma param_count_ok (ps : Params) (k : string) (z : Z) :
  ps !! k = Some (VInt z) → (0 ≤ z)%Z → param_count ps k = Ok (Z.to_nat z).
Proof.
  intros Hk Hz. unfold param_count, param. rewrite Hk. simpl.
  destruct (Z.leb_spec 0 z); [done|lia].
Qed.

Lemma movie_list_ok (sort : string) (o : Direction) (ps : Params) (page : Paging)
    (favorites : list string) (matched : list Node) :
  valid_paging page →
  ps !! "favorites" = Some (strings favorites) →
  ps !! "skip" = Some (VInt (Skip page)) →
  ps !! "limit" = Some (VInt (Limit page)) →
  movie_list sort o ps matched
  = Ok ((λ m, {["movie" := VMap (movie_projection (VStr <$> favorites) m)]})
          <$> window (Z.to_nat (Skip page)) (Z.to_nat (Limit page))
                (movie_matches sort o matched)).
Proof.
  intros [Hskip Hlimit] Hf Hs Hl. unfold movie_list, param_list, param.
  rewrite Hf. simpl.
  rewrite (param_count_ok _ _ _ Hs), (param_count_ok _ _ _ Hl) by lia.
  done.
Qed.

Lemma list_movies_ok (g : Graph) (l : Listing) (userId : string) (page : Paging)
    (favorites : list string) :
  valid_paging page →
  (getUserFavorites (neo4j g) userId []).1 = Ok favorites →
  (list_movies (neo4j g) l userId page).1
  = Ok (Slice (store_page g l page favorites) (Skip page) (Limit page)).
Proof.
  intros Hpage Hfav. unfold store_page.
  destruct l; simpl;
    (eapply sliced_list_ok; [exact Hfav| |apply collect_fmap|done]);
    simpl; unfold param; simplify_map_eq; simpl;
    by erewrite movie_list_ok by (done || by simplify_map_eq).
Qed.

(** ** Double windowing of the movie lists *)

Lemma store_page_length (g : Graph) (l : Listing) (page : Paging)
    (favorites : list string) :
  length (store_page g l page favorites) ≤ Z.to_nat (Limit page).
Proof. unfold store_page. rewrite length_fmap. apply window_length. Qed.

(** C1. [FindAll], [FindAllByGenre], [FindAllByActorId] and
    [FindAllByDirectorId] return the client-side slice [Slice _ skip limit]
    of the page the store has already cut to at most [limit] rows from offset
    [skip].  The slice drops [skip] rows a second time, so for [skip > 0] a
    non-empty page from the store comes back strictly shorter. *)
Theorem movie_lists_window_twice (g : Graph) (l : Listing) (userId : string)
    (page : Paging) (favorites : list string) :
  valid_paging page →
  (getUserFavorites (neo4j g) userId []).1 = Ok favorites →
  (list_movies (neo4j g) l userId page).1
    = Ok (Slice (store_page g l page favorites) (Skip page) (Limit page))
  ∧ length (store_page g l page favorites) ≤ Z.to_nat (Limit page)
  ∧ Slice (store_page g l page favorites) (Skip page) (Limit page)
    = drop (Z.to_nat (Skip page)) (store_page g l page favorites)
  ∧ ((0 < Skip page)%Z → store_page g l page favorites ≠ [] →
     length (Slice (store_page g l page favorites) (Skip page) (Limit page))
     < length (store_page g l page favorites)).
Proof.
  intros Hpage Hfav.
  pose proof (store_page_length g l page favorites) as Hlen.
  split; [by apply list_movies_ok|].
  split; [done|].
  rewrite Slice_of_page by done.
  split; [done|].
  intros Hskip Hne. rewrite length_drop.
  destruct (store_page g l page favorites); [done|]. simpl. lia.
Qed.

Lemma movie_lists_window_twice_witness :
  (list_movies (neo4j catalogue) Everything "u1" (paging "title" DESC 1 3)).1
    = Ok (Slice (store_page catalogue Everything (paging "title" DESC 1 3) ["2"]) 1 3)
  ∧ length (store_page catalogue Everything (paging "title" DESC 1 3) ["2"]) ≤ 3
  ∧ Slice (store_page catalogue Everything (paging "title" DESC 1 3) ["2"]) 1 3
    = drop 1 (store_page catalogue Everything (paging "title" DESC 1 3) ["2"])
  ∧ ((0 < 1)%Z → store_page catalogue Everything (paging "title" DESC 1 3) ["2"] ≠ [] →
     length (Slice (store_page catalogue Everything (paging "title" DESC 1 3) ["2"]) 1 3)
     < length (store_page catalogue Everything (paging "title" DESC 1 3) ["2"])).
Proof.
  apply (movie_lists_window_twice catalogue Everything "u1" (paging "title" DESC 1 3) ["2"]).
  - split; simpl; lia.
  - vm_compute. reflexivity.
Defined.

(** ** The favorite flag *)

Lemma with_session_closed {A} (s : Session) (body : Tx A) :
  close_error s = None → with_session s body = body [].
Proof.
  intros Hclose. unfold with_session. rewrite Hclose.
  by destruct (body []) as [[a|e] log].
Qed.

Lemma getUserFavorites_anonymous_inv (tx : Session) (favorites : list string) :
  (getUserFavorites tx EmptyString []).1 = Ok favorites → favorites = [].
Proof. simpl. congruence. Qed.

Lemma existsb_strings (s : string) (favorites : list string) :
  existsb (value_eqb (VStr s)) (VStr <$> favorites) = true ↔ s ∈ favorites.
Proof.
  rewrite existsb_exists. split.
  - intros (v & Hv & Heq). apply list_elem_of_In, list_elem_of_fmap in Hv as (t & -> & Ht).
    simpl in Heq. apply String.eqb_eq in Heq. by subst.
  - intros Hs. exists (VStr s). split.
    + apply list_elem_of_In, list_elem_of_fmap. by exists s.
    + simpl. apply String.eqb_refl.
Qed.

Lemma existsb_null_strings (favorites : list string) :
  existsb is_null (VStr <$> favorites) = false.
Proof. induction favorites; simpl; done. Qed.

Lemma existsb_other (v : value) (favorites : list string) :
  (∀ s, v ≠ VStr s) → existsb (value_eqb v) (VStr <$> favorites) = false.
Proof.
  intros Hv. induction favorites as [|t l IH]; [done|].
  rewrite fmap_cons. cbn [existsb]. rewrite IH, orb_false_r.
  destruct v; simpl; try done. by destruct (Hv s).
Qed.

Lemma cypher_in_strings (v : value) (favorites : list string) :
  cypher_in v (VStr <$> favorites) = VBool true
  ↔ ∃ s, v = VStr s ∧ s ∈ favorites.
Proof.
  destruct v as [| b | z | q | s | l | m];
    try (unfold cypher_in; rewrite existsb_other, existsb_null_strings by done;
         split; [done|by intros (? & ? & ?)]).
  - simpl. destruct favorites; simpl; (split; [done|by intros (? & ? & ?)]).
  - unfold cypher_in. rewrite existsb_null_strings.
    destruct (existsb _ _) eqn:Hex.
    + apply existsb_strings in Hex. split; [by exists s|done].
    + split; [done|]. intros (t & [= <-] & Ht).
      apply existsb_strings in Ht. congruence.
Qed.

Lemma cypher_in_nil (v : value) : cypher_in v [] = VBool false.
Proof. by destruct v. Qed.

Lemma prop_string (n : Node) (k s : string) :
  prop n k = VStr s ↔ node_props n !! k = Some (VStr s).
Proof.
  unfold prop. destruct (node_props n !! k); simpl; split; congruence.
Qed.

Lemma favorite_flagged_intro (userId : string) (favorites : list string)
    (tx : Session) (n : Node) (m : Movie) :
  (getUserFavorites tx userId []).1 = Ok favorites →
  m !! "favorite" = Some (cypher_in (prop n "tmdbId") (VStr <$> favorites)) →
  m !! "tmdbId" = node_props n !! "tmdbId" →
  favorite_flagged userId favorites m.
Proof.
  intros Hfav Hflag Hid. split.
  - rewrite Hflag, Hid. setoid_rewrite <- prop_string.
    rewrite <- cypher_in_strings. split; congruence.
  - intros ->. apply getUserFavorites_anonymous_inv in Hfav as ->.
    by rewrite Hflag, cypher_in_nil.
Qed.

Lemma movie_projection_flagged (userId : string) (favorites : list string)
    (tx : Session) (n : Node) :
  (getUserFavorites tx userId []).1 = Ok favorites →
  favorite_flagged userId favorites (movie_projection (VStr <$> favorites) n).
Proof.
  intros Hfav. eapply favorite_flagged_intro; [done| |];
    unfold movie_projection; by simplify_map_eq.
Qed.

Lemma similar_projection_flagged (userId : string) (favorites : list string)
    (tx : Session) (row : Node * value) :
  (getUserFavorites tx userId []).1 = Ok favorites →
  favorite_flagged userId favorites (similar_projection (VStr <$> favorites) row).
Proof.
  intros Hfav. eapply favorite_flagged_intro; [done| |];
    unfold similar_projection; by simplify_map_eq.
Qed.

(** What [FindAllBySimilarity] on movies returns from a store that holds [g]. *)
Lemma similar_movies_result (g : Graph) (id userId : string) (page : Paging)
    (favorites : list string) :
  valid_paging page →
  (getUserFavorites (neo4j g) userId []).1 = Ok favorites →
  (MovieService.FindAllBySimilarity (neo4j g) id userId page).1
  = (rows ← scored (count_paths (similar_movie_paths g (VStr id)));
     Ok (similar_projection (VStr <$> favorites)
           <$> window (Z.to_nat (Skip page)) (Z.to_nat (Limit page)) (by_score rows))).
Proof.
  intros [Hskip Hlimit] Hfav.
  unfold MovieService.FindAllBySimilarity. rewrite with_session_closed by done.
  unfold ReadTransaction, mbind at 1, tx_bind.
  rewrite getUserFavorites_frame, Hfav. simpl.
  unfold mbind at 1, tx_bind, Run, lift, MovieService.id_params, MovieService.list_params. simpl.
  unfold param_list, param_count, param. simplify_map_eq. simpl.
  destruct (Z.leb_spec 0 (Skip page)); [|lia].
  destruct (Z.leb_spec 0 (Limit page)); [|lia]. simpl.
  destruct (scored _) as [rows|e]; simpl; [|done].
  by rewrite (collect_fmap "movie").
Qed.

(** C2. Every movie returned by a list operation carries [favorite = true]
    exactly when its [tmdbId] is among the favorites resolved for the call;
    with an empty user identifier the favorites are resolved to the empty
    list without running any statement, and every returned movie carries
    [favorite = false]. *)
Theorem favorite_flag (g : Graph) (userId : string) (page : Paging)
    (favorites : list string) :
  valid_paging page →
  (getUserFavorites (neo4j g) userId []).1 = Ok favorites →
  (∀ l, ∃ movies, (list_movies (neo4j g) l userId page).1 = Ok movies
                  ∧ Forall (favorite_flagged userId favorites) movies)
  ∧ (∀ id movies,
       (MovieService.FindAllBySimilarity (neo4j g) id userId page).1 = Ok movies →
       Forall (favorite_flagged userId favorites) movies)
  ∧ (∀ tx log, getUserFavorites tx EmptyString log = (Ok [], log)).
Proof.
  intros Hpage Hfav. split; [|split].
  - intros l. eexists. split; [by apply list_movies_ok|].
    unfold Slice. apply Forall_take, Forall_drop, Forall_fmap, Forall_forall.
    intros n _. by eapply movie_projection_flagged.
  - intros id movies. rewrite (similar_movies_result _ _ _ _ favorites) by done.
    destruct (scored _) as [rows|e]; simpl; [|done].
    intros [= <-]. apply Forall_fmap, Forall_forall.
    intros row _. by eapply similar_projection_flagged.
  - apply getUserFavorites_anonymous.
Qed.

Lemma favorite_flag_witness :
  (∀ l, ∃ movies,
      (list_movies (neo4j catalogue) l "u1" (paging "title" ASC 0 2)).1 = Ok movies
      ∧ Forall (favorite_flagged "u1" ["2"]) movies)
  ∧ (∀ id movies,
       (MovieService.FindAllBySimilarity (neo4j catalogue) id "u1"
          (paging "title" ASC 0 2)).1 = Ok movies →
       Forall (favorite_flagged "u1" ["2"]) movies)
  ∧ (∀ tx log, getUserFavorites tx EmptyString log = (Ok [], log)).
Proof.
  apply (favorite_flag catalogue "u1" (paging "title" ASC 0 2) ["2"]).
  - split; simpl; lia.
  - vm_compute. reflexivity.
Defined.

(** ** Similar movies *)

Lemma insert_by_ext {A} (leb leb' : A → A → bool) (x : A) (l : list A) :
  (∀ y, y ∈ l → leb x y = leb' x y) →
  insert_by leb x l = insert_by leb' x l.
Proof.
  induction l as [|y l IH]; intros Hext; simpl; [done|].
  rewrite <- (Hext y) by left.
  rewrite IH; [done|]. intros z Hz. apply Hext. by right.
Qed.

Lemma sort_by_ext {A} (leb leb' : A → A → bool) (l : list A) :
  (∀ x y, x ∈ l → y ∈ l → leb x y = leb' x y) →
  sort_by leb l = sort_by leb' l.
Proof.
  induction l as [|x l IH]; intros Hext; simpl; [done|].
  rewrite <- IH by (intros; apply Hext; by right).
  apply insert_by_ext. intros y Hy. rewrite sort_by_perm in Hy.
  apply Hext; [by left|by right].
Qed.

Lemma traverse_Forall2 {A B} (f : A → result B) (l : list A) (k : list B) :
  traverse f l = Ok k → Forall2 (λ x y, f x = Ok y) l k.
Proof.
  revert k. induction l as [|x l IH]; intros k; simpl.
  - intros [= <-]. constructor.
  - destruct (f x) as [y|e] eqn:Hx; simpl; [|done].
    destruct (traverse f l) as [ys|e]; simpl; [|done].
    intros [= <-]. constructor; [done|by apply IH].
Qed.

Lemma value_leb_numbers (a b : value) :
  is_Some (num_of a) → is_Some (num_of b) →
  value_leb a b = Qle_bool (number a) (number b).
Proof.
  intros [p Hp] [q Hq]. unfold number. rewrite Hp, Hq. simpl.
  destruct a, b; simpl in *; try done; by simplify_eq.
Qed.

Lemma cypher_mul_number (v w : value) (n : nat) :
  cypher_mul v n = Ok w → is_Some (num_of w).
Proof. destruct v; simpl; intros [= <-]; by eexists. Qed.

Lemma elem_of_similar_movie_paths (g : Graph) (id : value) (m : Node) :
  m ∈ similar_movie_paths g id
  ↔ prop m "imdbRating" ≠ VNull
    ∧ ∃ s r1 x r2, s ∈ labelled g "Movie" "tmdbId" id
                   ∧ (r1, x) ∈ outgoing g connection_types s
                   ∧ (r2, m) ∈ incoming g connection_types x
                   ∧ rel_id r1 ≠ rel_id r2.
Proof.
  unfold similar_movie_paths. rewrite list_elem_of_bind. split.
  - intros (s & Hrow & Hs). apply list_elem_of_bind in Hrow as ([r1 x] & Hrow & Hout).
    apply list_elem_of_bind in Hrow as ([r2 m'] & Hrow & Hinc).
    destruct (Nat.eqb_spec (rel_id r1) (rel_id r2)) as [|Hne]; simpl in Hrow;
      [by apply elem_of_nil in Hrow|].
    destruct (prop m' "imdbRating") eqn:Hrating; simpl in Hrow;
      try (by apply elem_of_nil in Hrow);
      apply list_elem_of_singleton in Hrow as <-;
      (split; [by rewrite Hrating|by exists s, r1, x, r2]).
  - intros (Hrating & s & r1 & x & r2 & Hs & Hout & Hinc & Hne). exists s.
    split; [|done].
    apply list_elem_of_bind. exists (r1, x). split; [|done].
    apply list_elem_of_bind. exists (r2, m). split; [|done].
    destruct (Nat.eqb_spec (rel_id r1) (rel_id r2)); [done|]. simpl.
    destruct (prop m "imdbRating"); simpl; try done; by apply list_elem_of_singleton.
Qed.

Lemma by_score_sorted (rows : list (Node * value)) :
  Forall (λ row, is_Some (num_of row.2)) rows →
  StronglySorted (λ a b, (number b.2 <= number a.2)%Q) (by_score rows).
Proof.
  intros Hnum. unfold by_score.
  rewrite (sort_by_ext _ (λ a b, Qle_bool (number b.2) (number a.2))).
  - eapply StronglySorted_impl; [|apply sort_by_sorted].
    + intros a b. apply Qle_bool_iff.
    + intros a b. rewrite !Qle_bool_iff.
      destruct (Qlt_le_dec (number a.2) (number b.2)) as [Hlt|Hle];
        [right; by apply Qlt_le_weak|by left].
    + intros a b c. rewrite !Qle_bool_iff. intros Hab Hbc. by eapply Qle_trans.
  - rewrite Forall_forall in Hnum. intros a b Ha Hb.
    apply value_leb_numbers; by apply Hnum.
Qed.

Lemma scored_rows (g : Graph) (id : string) (rows : list (Node * value)) :
  scored (count_paths (similar_movie_paths g (VStr id))) = Ok rows →
  Forall (λ row,
            is_Some (num_of row.2)
            ∧ row.1 ∈ similar_movie_paths g (VStr id)
            ∧ cypher_mul (prop row.1 "imdbRating")
                (length (List.filter (same_node row.1) (similar_movie_paths g (VStr id))))
              = Ok row.2) rows.
Proof.
  intros Hrows. apply traverse_Forall2 in Hrows.
  unfold count_paths in Hrows. apply Forall2_fmap_l in Hrows.
  assert (Forall (λ n, n ∈ similar_movie_paths g (VStr id))
            (distinct_nodes (similar_movie_paths g (VStr id)))) as Hin
    by (apply Forall_forall; intros n; apply distinct_nodes_subseteq).
  induction Hrows as [|n row ns rs Hrow _ IH]; [constructor|].
  apply Forall_cons in Hin as [Hn Hns]. constructor; [|by apply IH].
  simpl in Hrow. destruct (cypher_mul _ _) as [w|e] eqn:Hmul; simpl in Hrow; [|done].
  injection Hrow as <-. simpl. split; [by eapply cypher_mul_number|done].
Qed.

(** The part of the ranking of similar movies that holds on every store:
    the returned movies are the skip/limit window of the candidates ordered
    by descending score, so the scores never increase along the result; each
    returned movie has a rating, and its score is the rating times the number
    of paths of the pattern that end in it. *)
Lemma similar_movies_ranked (g : Graph) (id userId : string) (page : Paging)
    (favorites : list string) (movies : list Movie) :
  valid_paging page →
  (getUserFavorites (neo4j g) userId []).1 = Ok favorites →
  (MovieService.FindAllBySimilarity (neo4j g) id userId page).1 = Ok movies →
  StronglySorted by_score_desc movies
  ∧ Forall (scored_candidate g id) movies
  ∧ length movies ≤ Z.to_nat (Limit page).
Proof.
  intros Hpage Hfav. rewrite (similar_movies_result _ _ _ _ favorites) by done.
  destruct (scored _) as [rows|e] eqn:Hrows; simpl; [|done].
  intros [= <-]. apply scored_rows in Hrows.
  assert (∀ row, score (similar_projection (VStr <$> favorites) row) = row.2) as Hscore.
  { intros row. unfold score, similar_projection. by simplify_map_eq. }
  split; [|split].
  - eapply StronglySorted_fmap; [|apply window_sorted, by_score_sorted].
    + intros a b Hab. unfold by_score_desc. by rewrite !Hscore.
    + eapply Forall_impl; [exact Hrows|]. by intros row [? _].
  - apply Forall_fmap. unfold window. apply Forall_take, Forall_drop.
    unfold by_score. rewrite sort_by_perm.
    eapply Forall_impl; [exact Hrows|]. intros [n w] (Hnum & Hin & Hmul). simpl in *.
    exists n, (length (List.filter (same_node n) (similar_movie_paths g (VStr id)))).
    split; [done|]. split; [by apply elem_of_similar_movie_paths in Hin as [? _]|].
    split; [done|]. rewrite Hscore. split; [done|].
    unfold similar_projection. by simplify_map_eq.
  - rewrite length_fmap. apply window_length.
Qed.

(** C3. On a store where two rated movies have the same actor and the same
    director, [FindAllByActorId] and [FindAllByDirectorId] list both movies,
    yet [FindAllBySimilarity] on the first returns no candidate: the pattern
    follows the relationships that leave the source movie, and the credits
    point to it. *)
Theorem similar_movies_miss_shared_cast :
  titles (MovieService.FindAllByActorId (neo4j shared_cast) "p1" EmptyString
            (paging "title" ASC 0 10)).1
    = Ok [Some (VStr "Alpha"); Some (VStr "Beta")]
  ∧ titles (MovieService.FindAllByDirectorId (neo4j shared_cast) "p2" EmptyString
              (paging "title" ASC 0 10)).1
    = Ok [Some (VStr "Alpha"); Some (VStr "Beta")]
  ∧ (MovieService.FindAllBySimilarity (neo4j shared_cast) "1" EmptyString
       (paging "title" ASC 0 10)).1 = Ok [].
Proof. repeat split; vm_compute; reflexivity. Qed.

(** ** Similar people *)

(** The rows of the pattern of similar people: a credit [r1] of the source
    on a title [m] and another credit [r] on [m], held by [p]. *)
Lemma elem_of_similar_people_paths (g : Graph) (id : value) (p m : Node) (r : Rel) :
  (p, (m, r)) ∈ similar_people_paths g id
  ↔ ∃ s r1, s ∈ labelled g "Person" "tmdbId" id
            ∧ (r1, m) ∈ outgoing g credit_types s
            ∧ (r, p) ∈ incoming g credit_types m
            ∧ rel_id r1 ≠ rel_id r.
Proof.
  unfold similar_people_paths. rewrite list_elem_of_bind. split.
  - intros (s & Hrow & Hs). apply list_elem_of_bind in Hrow as ([r1 m'] & Hrow & Hout).
    apply list_elem_of_bind in Hrow as ([r' p'] & Hrow & Hinc).
    destruct (Nat.eqb_spec (rel_id r1) (rel_id r')) as [|Hne]; simpl in Hrow;
      [by apply elem_of_nil in Hrow|].
    apply list_elem_of_singleton in Hrow as [= <- <- <-].
    by exists s, r1.
  - intros (s & r1 & Hs & Hout & Hinc & Hne). exists s. split; [|done].
    apply list_elem_of_bind. exists (r1, m). split; [|done].
    apply list_elem_of_bind. exists (r, p). split; [|done].
    destruct (Nat.eqb_spec (rel_id r1) (rel_id r)); [done|].
    by apply list_elem_of_singleton.
Qed.

Lemma by_in_common_sorted (people : list Person) :
  StronglySorted by_size_desc (by_in_common people).
Proof.
  eapply StronglySorted_impl; [|apply sort_by_sorted].
  - intros a b. apply Nat.leb_le.
  - intros a b. rewrite !Nat.leb_le. lia.
  - intros a b c. rewrite !Nat.leb_le. lia.
Qed.

Lemma similar_person_in_common (g : Graph) (group : Node * list (Node * Rel)) :
  similar_person g group !! "inCommon" = Some (VList (shared_title <$> group.2))
  ∧ in_common_size (similar_person g group) = length group.2.
Proof.
  assert (similar_person g group !! "inCommon"
          = Some (VList (shared_title <$> group.2))) as Hl.
  { unfold similar_person. by rewrite lookup_insert_eq. }
  split; [done|]. unfold in_common_size. by rewrite Hl, length_fmap.
Qed.

(** What [FindAllBySimilarity] on people returns from a store that holds [g]. *)
Lemma similar_people_result (g : Graph) (id : string) (page : Paging) :
  valid_paging page →
  (PeopleService.FindAllBySimilarity (neo4j g) id page).1
  = Ok (window (Z.to_nat (Skip page)) (Z.to_nat (Limit page))
          (by_in_common (similar_people g id))).
Proof.
  intros [Hskip Hlimit].
  unfold PeopleService.FindAllBySimilarity. rewrite with_session_closed by done.
  unfold ReadTransaction, mbind, tx_bind, Run, lift. simpl.
  unfold param_count, param. simplify_map_eq. simpl.
  destruct (Z.leb_spec 0 (Skip page)); [|lia].
  destruct (Z.leb_spec 0 (Limit page)); [|lia]. simpl.
  by rewrite (collect_fmap "person"), list_fmap_id.
Qed.

(** ** Pages *)

Lemma list_movies_respond (s : Session) (l : Listing) (userId : string)
    (page : Paging) (favorites : list string) (records : list DbRecord)
    (movies : list Movie) :
  close_error s = None →
  (getUserFavorites s userId []).1 = Ok favorites →
  respond s (listing_statement l page) (listing_params l page favorites) = Ok records →
  collect "movie" records = Ok movies →
  (list_movies s l userId page).1 = Ok (Slice movies (Skip page) (Limit page)).
Proof.
  intros Hclose Hfav Hrun Hcollect.
  destruct l; simpl in *; by eapply sliced_list_ok.
Qed.

(** From the second page on, a movie list is empty: the store returns at
    most [limit] rows and the slice drops [skip] of them. *)
Lemma movie_lists_later_pages_empty (g : Graph) (l : Listing) (userId : string)
    (page : Paging) (favorites : list string) :
  valid_paging page →
  (getUserFavorites (neo4j g) userId []).1 = Ok favorites →
  (Limit page ≤ Skip page)%Z →
  (list_movies (neo4j g) l userId page).1 = Ok [].
Proof.
  intros Hpage Hfav Hle.
  rewrite (list_movies_ok g l userId page favorites) by done.
  pose proof (store_page_length g l page favorites).
  rewrite Slice_of_page by done.
  f_equal. apply drop_ge. lia.
Qed.

(** X18. No list returns more than [limit] rows. *)
Lemma list_rows_at_most_limit (g : Graph) (userId id : string) (page : Paging)
    (favorites : list string) (rows : list (gmap string value)) :
  valid_paging page →
  (getUserFavorites (neo4j g) userId []).1 = Ok favorites →
  (∃ l, (list_movies (neo4j g) l userId page).1 = Ok rows)
  ∨ (MovieService.FindAllBySimilarity (neo4j g) id userId page).1 = Ok rows
  ∨ (PeopleService.FindAllBySimilarity (neo4j g) id page).1 = Ok rows →
  length rows ≤ Z.to_nat (Limit page).
Proof.
  intros Hpage Hfav [[l Hrows]|[Hrows|Hrows]].
  - rewrite (list_movies_ok g l userId page favorites) in Hrows by done.
    injection Hrows as <-. unfold Slice. rewrite length_take. lia.
  - by eapply similar_movies_ranked.
  - rewrite similar_people_result in Hrows by done.
    injection Hrows as <-. apply window_length.
Qed.

(** C5. On a store with four titled movies and the paging
    [sort = title, limit = 2], [FindAll] returns the first two movies for
    [skip = 0] and nothing for [skip = 2], where the next page holds the
    other two movies; on the same store the two pages of [FindAll] on people
    follow each other. *)
Theorem movies_second_page_is_empty :
  titles (MovieService.FindAll (neo4j catalogue) EmptyString (paging "title" ASC 0 2)).1
    = Ok [Some (VStr "Alpha"); Some (VStr "Beta")]
  ∧ titles (MovieService.FindAll (neo4j catalogue) EmptyString (paging "title" ASC 2 2)).1
    = Ok []
  ∧ (λ m, prop m "title") <$> movie_matches "title" ASC (all_movies catalogue)
    = [VStr "Alpha"; VStr "Beta"; VStr "Delta"; VStr "Gamma"]
  ∧ names (PeopleService.FindAll (neo4j catalogue) (paging "name" ASC 0 1)).1
    = Ok [Some (VStr "Ann Lee")]
  ∧ names (PeopleService.FindAll (neo4j catalogue) (paging "name" ASC 1 1)).1
    = Ok [Some (VStr "Bob Ray")].
Proof. repeat split; vm_compute; reflexivity. Qed.

(** ** From the answer of the store to the result of the call *)

Lemma similar_movies_respond (s : Session) (id userId : string) (page : Paging)
    (favorites : list string) (records : list DbRecord) (movies : list Movie) :
  close_error s = None →
  (getUserFavorites s userId []).1 = Ok favorites →
  respond s MoviesSimilar (MovieService.id_params id page favorites) = Ok records →
  collect "movie" records = Ok movies →
  (MovieService.FindAllBySimilarity s id userId page).1 = Ok movies.
Proof.
  intros Hclose Hfav Hrun Hcollect.
  unfold MovieService.FindAllBySimilarity. rewrite with_session_closed by done.
  unfold ReadTransaction, mbind, tx_bind, Run, lift.
  by rewrite getUserFavorites_frame, Hfav, Hrun, Hcollect.
Qed.

Lemma people_respond (s : Session) (page : Paging) (records : list DbRecord)
    (people : list Person) :
  close_error s = None →
  respond s (PeopleAll (Sort page) (Order page)) (PeopleService.list_params page)
    = Ok records →
  collect "person" records = Ok people →
  (PeopleService.FindAll s page).1 = Ok people.
Proof.
  intros Hclose Hrun Hcollect.
  unfold PeopleService.FindAll. rewrite with_session_closed by done.
  unfold ReadTransaction, mbind, tx_bind, Run, lift.
  by rewrite Hrun, Hcollect.
Qed.

Lemma similar_people_respond (s : Session) (id : string) (page : Paging)
    (records : list DbRecord) (people : list Person) :
  close_error s = None →
  respond s PeopleSimilar (PeopleService.similar_params id page) = Ok records →
  collect "person" records = Ok people →
  (PeopleService.FindAllBySimilarity s id page).1 = Ok people.
Proof.
  intros Hclose Hrun Hcollect.
  unfold PeopleService.FindAllBySimilarity. rewrite with_session_closed by done.
  unfold ReadTransaction, mbind, tx_bind, Run, lift.
  by rewrite Hrun, Hcollect.
Qed.

Lemma person_not_found (s : Session) (id : string) :
  respond s PersonById (PeopleService.detail_params id) = Ok [] →
  (PeopleService.FindOneById s id).1 = Err NotFound.
Proof.
  intros Hrun. unfold PeopleService.FindOneById, with_session, ReadTransaction.
  unfold mbind, tx_bind, Run, lift. rewrite Hrun. simpl.
  by destruct (close_error s).
Qed.

Lemma movie_not_found (s : Session) (id userId : string) (favorites : list string) :
  (getUserFavorites s userId []).1 = Ok favorites →
  respond s MovieById (MovieService.detail_params id favorites) = Ok [] →
  (MovieService.FindOneById s id userId).1 = Err NotFound.
Proof.
  intros Hfav Hrun. unfold MovieService.FindOneById, with_session, ReadTransaction.
  unfold mbind, tx_bind, Run, lift.
  rewrite getUserFavorites_frame, Hfav, Hrun. simpl.
  by destruct (close_error s).
Qed.

Lemma Slice_nil {A} (skip limit : Z) : Slice (@nil A) skip limit = [].
Proof. unfold Slice. by rewrite drop_nil, take_nil. Qed.

(** ** No row *)

(** C6. When the store answers the statement of [FindOneById] (movies or
    people) with no row, the call fails with [NotFound]; when it answers the
    statement of a list operation with no row, the call returns the empty
    list and no error. *)
Theorem zero_rows (s : Session) (userId : string) (favorites : list string) :
  (getUserFavorites s userId []).1 = Ok favorites →
  (∀ id, respond s MovieById (MovieService.detail_params id favorites) = Ok [] →
         (MovieService.FindOneById s id userId).1 = Err NotFound)
  ∧ (∀ id, respond s PersonById (PeopleService.detail_params id) = Ok [] →
           (PeopleService.FindOneById s id).1 = Err NotFound)
  ∧ (close_error s = None →
     (∀ l page,
        respond s (listing_statement l page) (listing_params l page favorites) = Ok [] →
        (list_movies s l userId page).1 = Ok [])
     ∧ (∀ id page,
          respond s MoviesSimilar (MovieService.id_params id page favorites) = Ok [] →
          (MovieService.FindAllBySimilarity s id userId page).1 = Ok [])
     ∧ (∀ page,
          respond s (PeopleAll (Sort page) (Order page)) (PeopleService.list_params page)
            = Ok [] →
          (PeopleService.FindAll s page).1 = Ok [])
     ∧ (∀ id page,
          respond s PeopleSimilar (PeopleService.similar_params id page) = Ok [] →
          (PeopleService.FindAllBySimilarity s id page).1 = Ok [])).
Proof.
  intros Hfav. split; [|split].
  - intros id. by apply movie_not_found.
  - intros id. by apply person_not_found.
  - intros Hclose. repeat split.
    + intros l page Hrun.
      rewrite (list_movies_respond s l userId page favorites [] []) by done.
      by rewrite Slice_nil.
    + intros id page Hrun. by eapply similar_movies_respond.
    + intros page Hrun. by eapply people_respond.
    + intros id page Hrun. by eapply similar_people_respond.
Qed.

Lemma zero_rows_witness :
  (MovieService.FindOneById (neo4j catalogue) "9" "u1").1 = Err NotFound
  ∧ (PeopleService.FindOneById (neo4j catalogue) "p9").1 = Err NotFound
  ∧ (list_movies (neo4j catalogue) (InGenre "Drama") "u1" (paging "title" ASC 0 2)).1 = Ok []
  ∧ (MovieService.FindAllBySimilarity (neo4j catalogue) "9" "u1"
       (paging "title" ASC 0 2)).1 = Ok []
  ∧ (PeopleService.FindAll (neo4j catalogue)
       {| Sort := "name"; Order := ASC; Skip := 0; Limit := 2; Query := Some "zed" |}).1
    = Ok []
  ∧ (PeopleService.FindAllBySimilarity (neo4j catalogue) "p9" (paging "name" ASC 0 2)).1
    = Ok [].
Proof.
  destruct (zero_rows (neo4j catalogue) "u1" ["2"]) as (Hmovie & Hperson & Hlists);
    [vm_compute; reflexivity|].
  destruct (Hlists eq_refl) as (Hlist & Hsimilar & Hpeople & Hsimilar_people).
  split; [apply Hmovie; vm_compute; reflexivity|].
  split; [apply Hperson; vm_compute; reflexivity|].
  split; [apply Hlist; vm_compute; reflexivity|].
  split; [apply Hsimilar; vm_compute; reflexivity|].
  split; [apply (Hpeople {| Sort := "name"; Order := ASC; Skip := 0; Limit := 2;
                            Query := Some "zed" |}); vm_compute; reflexivity|].
  apply Hsimilar_people; vm_compute; reflexivity.
Defined.

(** ** Similarity queries are paginated by the store alone *)

(** C10. [FindAllBySimilarity], on movies and on people, returns the maps of
    the records the store answered, in the same number and order; on the same
    answer a movie list returns the [Slice] of them. *)
Theorem similarity_returns_store_rows (s : Session) (userId : string)
    (favorites : list string) (records : list DbRecord)
    (maps : list (gmap string value)) :
  close_error s = None →
  (getUserFavorites s userId []).1 = Ok favorites →
  (∀ id page,
     respond s MoviesSimilar (MovieService.id_params id page favorites) = Ok records →
     Forall2 (λ record m, record !! "movie" = Some (VMap m)) records maps →
     (MovieService.FindAllBySimilarity s id userId page).1 = Ok maps)
  ∧ (∀ id page,
       respond s PeopleSimilar (PeopleService.similar_params id page) = Ok records →
       Forall2 (λ record m, record !! "person" = Some (VMap m)) records maps →
       (PeopleService.FindAllBySimilarity s id page).1 = Ok maps)
  ∧ (∀ l page,
       respond s (listing_statement l page) (listing_params l page favorites)
         = Ok records →
       Forall2 (λ record m, record !! "movie" = Some (VMap m)) records maps →
       (list_movies s l userId page).1 = Ok (Slice maps (Skip page) (Limit page))).
Proof.
  intros Hclose Hfav. repeat split.
  - intros id page Hrun Hmaps.
    eapply similar_movies_respond; [done..|by apply collect_Forall2].
  - intros id page Hrun Hmaps.
    eapply similar_people_respond; [done..|by apply collect_Forall2].
  - intros l page Hrun Hmaps.
    eapply list_movies_respond; [done..|by apply collect_Forall2].
Qed.

Lemma similarity_returns_store_rows_witness :
  (MovieService.FindAllBySimilarity (neo4j catalogue) "1" "u1"
     (paging "title" ASC 0 2)).1
  = Ok ((λ record, map_of (Get record "movie")) <$> sample_similar_records).
Proof.
  refine (proj1 (similarity_returns_store_rows (neo4j catalogue) "u1" ["2"]
                   sample_similar_records _ _ _) "1" (paging "title" ASC 0 2) _ _).
  - reflexivity.
  - vm_compute. reflexivity.
  - vm_compute. reflexivity.
  - vm_compute. repeat constructor.
Defined.

(** ** Statements and their parameters *)

Lemma favorites_log (tx : Session) (userId : string) :
  Forall (favorites_lookup userId) (getUserFavorites tx userId []).2.
Proof.
  unfold getUserFavorites. destruct (decide (userId = EmptyString)); simpl.
  - constructor.
  - unfold mbind, tx_bind, Run, lift. simpl.
    assert (favorites_lookup userId (cypher UserFavorites, <["userId" := VStr userId]> ∅)).
    { split; [done|]. apply Forall_singleton. simpl. by rewrite lookup_insert_eq. }
    destruct (respond tx UserFavorites _); simpl; by apply Forall_singleton.
Qed.

Lemma sliced_list_log (s : Session) (st : Statement) (ps : list string → Params)
    (userId : string) (page : Paging) :
  Forall (λ entry, favorites_lookup userId entry ∨ ∃ favorites, entry = (cypher st, ps favorites))
    (MovieService.sliced_list s st ps userId page).2.
Proof.
  pose proof (favorites_log s userId) as Hlog.
  unfold MovieService.sliced_list, with_session, ReadTransaction.
  unfold mbind, tx_bind, Run, lift. rewrite getUserFavorites_frame. simpl.
  assert (Forall (λ entry, favorites_lookup userId entry
                           ∨ ∃ favorites, entry = (cypher st, ps favorites))
            (getUserFavorites s userId []).2) as Hfav.
  { eapply Forall_impl; [exact Hlog|]. intros; by left. }
  destruct (getUserFavorites s userId []).1 as [favorites|e]; simpl; [|done].
  assert (Forall (λ entry, favorites_lookup userId entry
                           ∨ ∃ favorites, entry = (cypher st, ps favorites))
            ((getUserFavorites s userId []).2 ++ [(cypher st, ps favorites)])) as Hall.
  { apply Forall_app. split; [done|]. apply Forall_singleton. right. by exists favorites. }
  destruct (respond s st (ps favorites)); simpl; [|done].
  by destruct (collect "movie" _).
Qed.

Lemma detail_log (s : Session) (id userId : string) :
  Forall (λ entry, favorites_lookup userId entry
                   ∨ ∃ favorites,
                       entry = (cypher MovieById, MovieService.detail_params id favorites))
    (MovieService.FindOneById s id userId).2.
Proof.
  pose proof (favorites_log s userId) as Hlog.
  unfold MovieService.FindOneById, with_session, ReadTransaction.
  unfold mbind, tx_bind, Run, lift. rewrite getUserFavorites_frame. simpl.
  assert (Forall (λ entry, favorites_lookup userId entry
                           ∨ ∃ favorites,
                               entry = (cypher MovieById, MovieService.detail_params id favorites))
            (getUserFavorites s userId []).2) as Hfav.
  { eapply Forall_impl; [exact Hlog|]. intros; by left. }
  destruct (getUserFavorites s userId []).1 as [favorites|e]; simpl; [|done].
  assert (Forall (λ entry, favorites_lookup userId entry
                           ∨ ∃ favorites,
                               entry = (cypher MovieById, MovieService.detail_params id favorites))
            ((getUserFavorites s userId []).2
               ++ [(cypher MovieById, MovieService.detail_params id favorites)])) as Hall.
  { apply Forall_app. split; [done|]. apply Forall_singleton. right. by exists favorites. }
  destruct (respond s MovieById _) as [records|e]; simpl; [|done].
  destruct (Single records) as [record|e]; simpl; [|done].
  by destruct (as_map (Get record "movie")).
Qed.

Lemma similar_movies_log (s : Session) (id userId : string) (page : Paging) :
  Forall (λ entry, favorites_lookup userId entry
                   ∨ ∃ favorites,
                       entry = (cypher MoviesSimilar, MovieService.id_params id page favorites))
    (MovieService.FindAllBySimilarity s id userId page).2.
Proof.
  pose proof (favorites_log s userId) as Hlog.
  unfold MovieService.FindAllBySimilarity, with_session, ReadTransaction.
  unfold mbind, tx_bind, Run, lift. rewrite getUserFavorites_frame. simpl.
  assert (Forall (λ entry, favorites_lookup userId entry
                           ∨ ∃ favorites,
                               entry = (cypher MoviesSimilar,
                                        MovieService.id_params id page favorites))
            (getUserFavorites s userId []).2) as Hfav.
  { eapply Forall_impl; [exact Hlog|]. intros; by left. }
  destruct (getUserFavorites s userId []).1 as [favorites|e]; simpl; [|done].
  assert (Forall (λ entry, favorites_lookup userId entry
                           ∨ ∃ favorites,
                               entry = (cypher MoviesSimilar,
                                        MovieService.id_params id page favorites))
            ((getUserFavorites s userId []).2
               ++ [(cypher MoviesSimilar, MovieService.id_params id page favorites)])) as Hall.
  { apply Forall_app. split; [done|]. apply Forall_singleton. right. by exists favorites. }
  destruct (respond s MoviesSimilar _) as [records|e]; simpl; [|done].
  done.
Qed.

Lemma people_logs (s : Session) (id : string) (page : Paging) :
  (PeopleService.FindAll s page).2
    = [(cypher (PeopleAll (Sort page) (Order page)), PeopleService.list_params page)]
  ∧ (PeopleService.FindOneById s id).2
    = [(cypher PersonById, PeopleService.detail_params id)]
  ∧ (PeopleService.FindAllBySimilarity s id page).2
    = [(cypher PeopleSimilar, PeopleService.similar_params id page)].
Proof.
  unfold PeopleService.FindAll, PeopleService.FindOneById,
    PeopleService.FindAllBySimilarity, with_session, ReadTransaction.
  unfold mbind, tx_bind, Run, lift. simpl. repeat split.
  - by destruct (respond s (PeopleAll _ _) _).
  - destruct (respond s PersonById _) as [records|e]; simpl; [|done].
    by destruct (Single records) as [record|e].
  - by destruct (respond s PeopleSimilar _).
Qed.

Ltac bound :=
  split; [reflexivity|];
  repeat (apply Forall_cons; split; [simpl; by simplify_map_eq|]);
  apply Forall_nil_2.

(** C8. Every statement a list or detail operation submits carries a text
    that is fixed, or built from the sort property and the direction of the
    paging alone; the entity identifier, the genre name, the user identifier,
    the favorites, the free-text query, [skip] and [limit] are bound under
    their parameter names. *)
Theorem values_are_bound (s : Session) (userId : string) (page : Paging) :
  Forall (λ entry,
            favorites_lookup userId entry
            ∨ ∃ favorites,
                submitted_as
                  (text_MoviesAll (Sort page) (order_keyword (Order page)))
                  (paged page favorites) entry)
    (MovieService.FindAll s userId page).2
  ∧ (∀ genre,
       Forall (λ entry,
                 favorites_lookup userId entry
                 ∨ ∃ favorites,
                     submitted_as
                       (text_MoviesByGenre (Sort page) (order_keyword (Order page)))
                       (("name", VStr genre) :: paged page favorites) entry)
         (MovieService.FindAllByGenre s genre userId page).2)
  ∧ (∀ actorId,
       Forall (λ entry,
                 favorites_lookup userId entry
                 ∨ ∃ favorites,
                     submitted_as
                       (text_MoviesByActor (Sort page) (order_keyword (Order page)))
                       (("id", VStr actorId) :: paged page favorites) entry)
         (MovieService.FindAllByActorId s actorId userId page).2)
  ∧ (∀ actorId,
       Forall (λ entry,
                 favorites_lookup userId entry
                 ∨ ∃ favorites,
                     submitted_as
                       (text_MoviesByDirector (Sort page) (order_keyword (Order page)))
                       (("id", VStr actorId) :: paged page favorites) entry)
         (MovieService.FindAllByDirectorId s actorId userId page).2)
  ∧ (∀ id,
       Forall (λ entry,
                 favorites_lookup userId entry
                 ∨ ∃ favorites,
                     submitted_as text_MovieById
                       [("id", VStr id); ("favorites", strings favorites)] entry)
         (MovieService.FindOneById s id userId).2)
  ∧ (∀ id,
       Forall (λ entry,
                 favorites_lookup userId entry
                 ∨ ∃ favorites,
                     submitted_as text_MoviesSimilar
                       (("id", VStr id) :: paged page favorites) entry)
         (MovieService.FindAllBySimilarity s id userId page).2)
  ∧ Forall (submitted_as
              (text_PeopleAll (Sort page) (order_keyword (Order page)))
              [("q", PeopleService.q_param page); ("skip", VInt (Skip page));
               ("limit", VInt (Limit page))])
      (PeopleService.FindAll s page).2
  ∧ (∀ id,
       Forall (submitted_as text_PersonById [("id", VStr id)])
         (PeopleService.FindOneById s id).2)
  ∧ (∀ id,
       Forall (submitted_as text_PeopleSimilar
                 [("id", VStr id); ("skip", VInt (Skip page));
                  ("limit", VInt (Limit page))])
         (PeopleService.FindAllBySimilarity s id page).2).
Proof.
  repeat split; intros;
    try (eapply Forall_impl;
         [first [apply sliced_list_log|apply detail_log|apply similar_movies_log]|];
         intros entry [Hfav|[favorites ->]]; [by left|right; exists favorites; bound]).
  - destruct (people_logs s EmptyString page) as (-> & _ & _).
    apply Forall_singleton. bound.
  - destruct (people_logs s id page) as (_ & -> & _).
    apply Forall_singleton. bound.
  - destruct (people_logs s id page) as (_ & _ & ->).
    apply Forall_singleton. bound.
Qed.

(** ** The name filter of people *)



Lemma filter_result_included (q : option string) (people : list Node) :
  forallb (λ p, string_or_null (prop p "name")) people = true →
  filter_result
    (name_filter match q with Some s => VStr s | None => VNull end) people
  = Ok (List.filter (included q) people).
Proof.
  induction people as [|p people IH]; simpl; [done|].
  rewrite andb_true_iff. intros [Hp Hpeople]. rewrite (IH Hpeople).
  destruct q as [s|]; simpl; [|done].
  by destruct (prop p "name").
Qed.

(** What [FindAll] on people returns from a store that holds [g]. *)
Lemma people_result (g : Graph) (page : Paging) :
  valid_paging page →
  names_are_strings g = true →
  (PeopleService.FindAll (neo4j g) page).1
  = Ok (node_props
          <$> window (Z.to_nat (Skip page)) (Z.to_nat (Limit page))
                (ordered (Order page) (λ p, prop p (Sort page))
                   (List.filter (included (Query page)) (all_people g)))).
Proof.
  intros [Hskip Hlimit] Hnames.
  eapply people_respond; [done| |apply (collect_fmap "person")].
  simpl. unfold param_count, param, PeopleService.list_params. simplify_map_eq. simpl.
  destruct (Z.leb_spec 0 (Skip page)); [|lia].
  destruct (Z.leb_spec 0 (Limit page)); [|lia]. simpl.
  unfold PeopleService.q_param.
  by rewrite (filter_result_included (Query page)).
Qed.

(** X17. The lists of people are paginated by the store alone: a page has at
    most [limit] rows, and the page at [skip + limit] continues the page at
    [skip]. *)
Lemma people_pages_follow (g : Graph) (page next : Paging) (first second : list Person) :
  valid_paging page →
  names_are_strings g = true →
  Sort next = Sort page → Order next = Order page → Query next = Query page →
  Limit next = Limit page → Skip next = (Skip page + Limit page)%Z →
  (PeopleService.FindAll (neo4j g) page).1 = Ok first →
  (PeopleService.FindAll (neo4j g) next).1 = Ok second →
  length first ≤ Z.to_nat (Limit page)
  ∧ first ++ second
    = node_props
        <$> window (Z.to_nat (Skip page)) (Z.to_nat (Limit page) + Z.to_nat (Limit page))
              (ordered (Order page) (λ p, prop p (Sort page))
                 (List.filter (included (Query page)) (all_people g))).
Proof.
  intros [Hskip Hlimit] Hnames Hsort Horder Hquery Hlim Hnext.
  rewrite !people_result by (done || split; lia).
  rewrite Hsort, Horder, Hquery, Hlim, Hnext, Z2Nat.inj_add by lia.
  intros [= <-] [= <-]. split.
  - rewrite length_fmap. apply window_length.
  - by rewrite <- fmap_app, window_next.
Qed.



(** ** Ties between similar people *)





(** ** The order of values *)

Lemma string_compare_trans (s1 s2 s3 : string) :
  String.compare s1 s2 ≠ Gt → String.compare s2 s3 ≠ Gt → String.compare s1 s3 ≠ Gt.
Proof.
  revert s2 s3. induction s1 as [|c1 s1 IH]; intros [|c2 s2] [|c3 s3]; simpl; try done.
  unfold Ascii.compare.
  destruct (N.compare_spec (N_of_ascii c1) (N_of_ascii c2)) as [H12|H12|H12]; [| |done];
    destruct (N.compare_spec (N_of_ascii c2) (N_of_ascii c3)) as [H23|H23|H23];
    try done; intros H1 H2.
  - rewrite H12, H23, N.compare_refl. by apply (IH s2).
  - rewrite H12. by apply N.compare_lt_iff in H23 as ->.
  - rewrite <- H23. by apply N.compare_lt_iff in H12 as ->.
  - assert (N_of_ascii c1 < N_of_ascii c3)%N as H13 by (by etrans).
    by apply N.compare_lt_iff in H13 as ->.
Qed.

Lemma string_leb_trans (s1 s2 s3 : string) :
  String.leb s1 s2 = true → String.leb s2 s3 = true → String.leb s1 s3 = true.
Proof.
  unfold String.leb. intros H12 H23.
  pose proof (string_compare_trans s1 s2 s3) as H.
  destruct (String.compare s1 s2), (String.compare s2 s3), (String.compare s1 s3);
    try done; by destruct H.
Qed.

Lemma Qle_bool_total (p q : Q) : Qle_bool p q = true ∨ Qle_bool q p = true.
Proof.
  rewrite !Qle_bool_iff.
  destruct (Qlt_le_dec p q); [left; by apply Qlt_le_weak|by right].
Qed.

Lemma Qle_bool_trans (p q r : Q) :
  Qle_bool p q = true → Qle_bool q r = true → Qle_bool p r = true.
Proof. rewrite !Qle_bool_iff. apply Qle_trans. Qed.

Lemma value_leb_total (a b : value) : value_leb a b = true ∨ value_leb b a = true.
Proof.
  destruct a, b; simpl; try (by left); try (by right);
    try apply Qle_bool_total.
  - destruct b, b0; auto.
  - apply String.leb_total.
Qed.

Lemma value_leb_trans (a b c : value) :
  value_leb a b = true → value_leb b c = true → value_leb a c = true.
Proof.
  destruct a, b, c; simpl; try done; try apply Qle_bool_trans.
  - by destruct b, b0, b1.
  - apply string_leb_trans.
Qed.

(** Null sorts after everything else. *)
Lemma value_leb_null (b : value) : value_leb VNull b = true → b = VNull.
Proof. by destruct b. Qed.

Lemma ordered_sorted {A} (o : Direction) (key : A → value) (rows : list A) :
  StronglySorted (λ a b, in_order o (key a) (key b)) (ordered o key rows).
Proof.
  unfold ordered. eapply StronglySorted_impl; [|apply sort_by_sorted].
  - intros a b. by destruct o.
  - intros a b. destruct o; apply value_leb_total.
  - intros a b c. destruct o; [apply value_leb_trans|].
    intros Hba Hcb. by eapply value_leb_trans.
Qed.

(** ** What the patterns match *)

Lemma value_eqb_string (v : value) (s : string) :
  value_eqb v (VStr s) = true ↔ v = VStr s.
Proof.
  destruct v; simpl; try (split; [done|by intros [=]]).
  rewrite String.eqb_eq. split; [by intros ->|by intros [= ->]].
Qed.

Lemma is_null_false (v : value) : negb (is_null v) = true ↔ v ≠ VNull.
Proof. destruct v; simpl; split; done. Qed.

Lemma has_type_single (type : string) (r : Rel) :
  has_type [type] r = true ↔ rel_type r = type.
Proof. unfold has_type. simpl. by rewrite orb_false_r, String.eqb_eq. Qed.

Lemma find_node_elem_of (g : Graph) (i : nat) (n : Node) :
  find_node g i = Some n → n ∈ nodes g.
Proof. intros Hn. apply find_some in Hn as [Hn _]. by apply list_elem_of_In. Qed.

Lemma elem_of_labelled (g : Graph) (label key s : string) (n : Node) :
  n ∈ labelled g label key (VStr s)
  ↔ n ∈ nodes g ∧ has_label label n = true ∧ prop n key = VStr s.
Proof.
  unfold labelled. by rewrite elem_of_filterb, andb_true_iff, value_eqb_string.
Qed.

Lemma edge_outgoing (g : Graph) (type : string) (a b : Node) :
  edge g type a b ↔ ∃ r, (r, b) ∈ outgoing g [type] a.
Proof.
  unfold edge. split; intros [r Hr]; exists r.
  - destruct Hr as (Hin & Htype & Hstart & Hfind).
    apply elem_of_outgoing. by rewrite has_type_single.
  - apply elem_of_outgoing in Hr as (Hin & Hstart & Htype & Hfind).
    by apply has_type_single in Htype.
Qed.

Lemma elem_of_pattern_matches (g : Graph) (l : Listing) (n : Node) :
  n ∈ pattern_matches g l ↔ matches_listing g l n.
Proof.
  unfold matches_listing. destruct l as [|genre|actorId|actorId]; simpl.
  - unfold all_movies. rewrite elem_of_filterb.
    split; [by intros [? ?]|by intros (? & ? & _)].
  - unfold movies_in_genre, all_movies. rewrite list_elem_of_bind. split.
    + intros (m & Hn & Hm). apply elem_of_filterb in Hm as [Hm Hlabel].
      apply list_elem_of_bind in Hn as ([r x] & Hn & Hout).
      destruct (has_label "Genre" x && value_eqb (prop x "name") (VStr genre)) eqn:Hx;
        [|by apply elem_of_nil in Hn].
      apply list_elem_of_singleton in Hn as ->.
      apply andb_true_iff in Hx as [Hgenre Hname]. apply value_eqb_string in Hname.
      split; [done|]. split; [done|]. exists x.
      split; [apply edge_outgoing; by exists r|done].
    + intros (Hn & Hlabel & x & Hedge & Hgenre & Hname).
      apply edge_outgoing in Hedge as [r Hr]. exists n.
      split; [|by apply elem_of_filterb].
      apply list_elem_of_bind. exists (r, x). split; [|done].
      apply value_eqb_string in Hname. rewrite Hgenre, Hname. simpl.
      by apply list_elem_of_singleton.
  - unfold movies_of_person. rewrite list_elem_of_bind. split.
    + intros (p & Hn & Hp). apply elem_of_labelled in Hp as (Hp & Hlabel & Hid).
      apply list_elem_of_bind in Hn as ([r m] & Hn & Hout).
      destruct (has_label "Movie" m) eqn:Hm; [|by apply elem_of_nil in Hn].
      apply list_elem_of_singleton in Hn as ->.
      assert (edge g "ACTED_IN" p m) as Hedge by (apply edge_outgoing; by exists r).
      split; [|split; [done|by exists p]].
      destruct Hedge as (? & _ & _ & _ & Hfind). by eapply find_node_elem_of.
    + intros (Hn & Hlabel & p & Hp & Hperson & Hid & Hedge).
      apply edge_outgoing in Hedge as [r Hr]. exists p.
      split; [|by apply elem_of_labelled].
      apply list_elem_of_bind. exists (r, n). split; [|done].
      rewrite Hlabel. by apply list_elem_of_singleton.
  - unfold movies_of_person. rewrite list_elem_of_bind. split.
    + intros (p & Hn & Hp). apply elem_of_labelled in Hp as (Hp & Hlabel & Hid).
      apply list_elem_of_bind in Hn as ([r m] & Hn & Hout).
      destruct (has_label "Movie" m) eqn:Hm; [|by apply elem_of_nil in Hn].
      apply list_elem_of_singleton in Hn as ->.
      assert (edge g "DIRECTED" p m) as Hedge by (apply edge_outgoing; by exists r).
      split; [|split; [done|by exists p]].
      destruct Hedge as (? & _ & _ & _ & Hfind). by eapply find_node_elem_of.
    + intros (Hn & Hlabel & p & Hp & Hperson & Hid & Hedge).
      apply edge_outgoing in Hedge as [r Hr]. exists p.
      split; [|by apply elem_of_labelled].
      apply list_elem_of_bind. exists (r, n). split; [|done].
      rewrite Hlabel. by apply list_elem_of_singleton.
Qed.

Lemma elem_of_movie_matches (g : Graph) (l : Listing) (sort : string)
    (o : Direction) (n : Node) :
  n ∈ movie_matches sort o (pattern_matches g l)
  ↔ matches_listing g l n ∧ prop n sort ≠ VNull.
Proof.
  unfold movie_matches, ordered. rewrite sort_by_perm, elem_of_filterb.
  by rewrite elem_of_pattern_matches, is_null_false.
Qed.

Lemma Slice_fmap {A B} (f : A → B) (rows : list A) (skip limit : Z) :
  Slice (f <$> rows) skip limit = f <$> Slice rows skip limit.
Proof. unfold Slice. by rewrite fmap_take, fmap_drop. Qed.

Lemma Slice_sublist {A} (rows : list A) (skip limit : Z) :
  Slice rows skip limit `sublist_of` rows.
Proof. unfold Slice. etrans; [apply sublist_take|apply sublist_drop]. Qed.

(** ** The movie lists: what is returned, and in which order *)

(** X1. The four movie lists return projections of nodes that the pattern of the
    list matches and whose sort property is not null, ordered by that
    property in the direction of the paging; a first page that is large
    enough for all the matches holds every one of them. *)
Theorem movie_lists_sound_and_ordered (g : Graph) (l : Listing) (userId : string)
    (page : Paging) (favorites : list string) :
  valid_paging page →
  (getUserFavorites (neo4j g) userId []).1 = Ok favorites →
  ∃ ns,
    (list_movies (neo4j g) l userId page).1
      = Ok (movie_projection (VStr <$> favorites) <$> ns)
    ∧ Forall (λ n, matches_listing g l n ∧ prop n (Sort page) ≠ VNull) ns
    ∧ StronglySorted
        (λ a b, in_order (Order page) (prop a (Sort page)) (prop b (Sort page))) ns
    ∧ (Skip page = 0%Z →
       length (pattern_matches g l) ≤ Z.to_nat (Limit page) →
       ∀ n, matches_listing g l n → prop n (Sort page) ≠ VNull → n ∈ ns).
Proof.
  intros Hpage Hfav.
  set (matches := movie_matches (Sort page) (Order page) (pattern_matches g l)).
  set (stored := window (Z.to_nat (Skip page)) (Z.to_nat (Limit page)) matches).
  exists (Slice stored (Skip page) (Limit page)).
  assert (Slice stored (Skip page) (Limit page) `sublist_of` matches) as Hsub.
  { etrans; [apply Slice_sublist|apply window_sublist]. }
  split; [|split; [|split]].
  - rewrite (list_movies_ok g l userId page favorites) by done.
    unfold store_page. by rewrite Slice_fmap.
  - apply Forall_forall. intros n Hn.
    apply (elem_of_movie_matches g l (Sort page) (Order page)).
    by eapply elem_of_sublist.
  - eapply StronglySorted_sublist; [exact Hsub|]. apply ordered_sorted.
  - intros Hskip Hlen n Hn Hsort.
    assert (n ∈ matches) as Hin by (by apply elem_of_movie_matches).
    assert (length matches ≤ Z.to_nat (Limit page)) as Hmatches.
    { unfold matches, movie_matches, ordered. rewrite sort_by_perm.
      etrans; [apply filter_length_le|done]. }
    unfold stored, Slice, window. rewrite Hskip.
    change (Z.to_nat 0) with 0. rewrite !drop_0.
    rewrite (take_ge matches) by done. by rewrite take_ge.
Qed.

Lemma movie_lists_sound_and_ordered_witness :
  ∃ ns,
    (list_movies (neo4j catalogue) (InGenre "Action") "u1" (paging "title" DESC 0 5)).1
      = Ok (movie_projection (VStr <$> ["2"]) <$> ns)
    ∧ Forall (λ n, matches_listing catalogue (InGenre "Action") n
                   ∧ prop n "title" ≠ VNull) ns
    ∧ StronglySorted (λ a b, in_order DESC (prop a "title") (prop b "title")) ns
    ∧ (0%Z = 0%Z →
       length (pattern_matches catalogue (InGenre "Action")) ≤ 5 →
       ∀ n, matches_listing catalogue (InGenre "Action") n →
            prop n "title" ≠ VNull → n ∈ ns).
Proof.
  apply (movie_lists_sound_and_ordered catalogue (InGenre "Action") "u1"
           (paging "title" DESC 0 5) ["2"]).
  - split; simpl; lia.
  - vm_compute. reflexivity.
Defined.

(** ** The list of people: what is returned, and in which order *)

(** X2. [FindAll] on people returns the properties of [Person] nodes that pass
    the name filter, ordered by the sort property in the direction of the
    paging.  People without the sort property are kept (a first page large
    enough for all people holds every one that passes the filter): they come
    after all the others in ascending order and before them in descending
    order. *)
Theorem people_list_sound_and_ordered (g : Graph) (page : Paging) :
  valid_paging page →
  names_are_strings g = true →
  ∃ ps,
    (PeopleService.FindAll (neo4j g) page).1 = Ok (node_props <$> ps)
    ∧ Forall (λ p, p ∈ nodes g ∧ has_label "Person" p = true
                   ∧ included (Query page) p = true) ps
    ∧ StronglySorted
        (λ a b, in_order (Order page) (prop a (Sort page)) (prop b (Sort page))) ps
    ∧ (∀ before p after,
         ps = before ++ p :: after → prop p (Sort page) = VNull →
         Forall (λ q, prop q (Sort page) = VNull)
           match Order page with ASC => after | DESC => before end)
    ∧ (Skip page = 0%Z →
       length (all_people g) ≤ Z.to_nat (Limit page) →
       ∀ p, p ∈ nodes g → has_label "Person" p = true →
            included (Query page) p = true → p ∈ ps).
Proof.
  intros Hpage Hnames.
  set (kept := List.filter (included (Query page)) (all_people g)).
  set (sorted := ordered (Order page) (λ p, prop p (Sort page)) kept).
  exists (window (Z.to_nat (Skip page)) (Z.to_nat (Limit page)) sorted).
  assert (StronglySorted
            (λ a b, in_order (Order page) (prop a (Sort page)) (prop b (Sort page)))
            (window (Z.to_nat (Skip page)) (Z.to_nat (Limit page)) sorted)) as Hsorted
    by apply window_sorted, ordered_sorted.
  assert (∀ p, p ∈ sorted ↔ p ∈ nodes g ∧ has_label "Person" p = true
                            ∧ included (Query page) p = true) as Hin.
  { intros p. unfold sorted, ordered, kept, all_people.
    rewrite sort_by_perm, !elem_of_filterb.
    split; [by intros [[? ?] ?]|by intros (? & ? & ?)]. }
  split; [by apply people_result|]. split; [|split; [done|split]].
  - apply Forall_forall. intros p Hp. apply Hin.
    eapply elem_of_sublist; [exact Hp|apply window_sublist].
  - intros before p after Heq Hnull. rewrite Heq in Hsorted.
    apply Forall_forall. intros q Hq.
    destruct (Order page) eqn:Ho.
    + rewrite cons_middle, app_assoc in Hsorted.
      pose proof (StronglySorted_app_1_elem_of _ _ _ p q Hsorted) as Hpq.
      simpl in Hpq. rewrite Hnull in Hpq. apply value_leb_null, Hpq; [|done].
      apply elem_of_app. right. by apply list_elem_of_singleton.
    + pose proof (StronglySorted_app_1_elem_of _ _ _ q p Hsorted) as Hqp.
      simpl in Hqp. rewrite Hnull in Hqp. apply value_leb_null, Hqp; [done|].
      by left.
  - intros Hskip Hlen p Hp Hlabel Hincluded.
    assert (length sorted ≤ Z.to_nat (Limit page)) as Hsize.
    { unfold sorted, ordered, kept. rewrite sort_by_perm.
      etrans; [apply filter_length_le|done]. }
    unfold window. rewrite Hskip. change (Z.to_nat 0) with 0.
    rewrite drop_0, take_ge by done. by apply Hin.
Qed.

Lemma people_list_sound_and_ordered_witness :
  ∃ ps,
    (PeopleService.FindAll (neo4j catalogue) (paging "born" DESC 0 5)).1
      = Ok (node_props <$> ps)
    ∧ Forall (λ p, p ∈ nodes catalogue ∧ has_label "Person" p = true
                   ∧ included None p = true) ps
    ∧ StronglySorted (λ a b, in_order DESC (prop a "born") (prop b "born")) ps
    ∧ (∀ before p after,
         ps = before ++ p :: after → prop p "born" = VNull →
         Forall (λ q, prop q "born" = VNull) before)
    ∧ (0%Z = 0%Z →
       length (all_people catalogue) ≤ 5 →
       ∀ p, p ∈ nodes catalogue → has_label "Person" p = true →
            included None p = true → p ∈ ps).
Proof.
  apply (people_list_sound_and_ordered catalogue (paging "born" DESC 0 5)).
  - split; simpl; lia.
  - vm_compute. reflexivity.
Defined.

(** ** Running the methods on any session *)

Lemma with_session_log {A} (s : Session) (body : Tx A) :
  (with_session s body).2 = (body []).2.
Proof. unfold with_session. by destruct (body []). Qed.

Lemma getUserFavorites_log (tx : Session) (userId : string) :
  (getUserFavorites tx userId []).2 = lookup_log userId.
Proof.
  unfold getUserFavorites, lookup_log.
  destruct (decide (userId = EmptyString)); [done|].
  unfold mbind, tx_bind, Run, lift. simpl.
  by destruct (respond tx UserFavorites _).
Qed.

Lemma getUserFavorites_failed (tx : Session) (userId : string) (e : error) :
  (getUserFavorites tx userId []).1 = Err e → lookup_log userId = [favorites_request userId].
Proof.
  unfold getUserFavorites, lookup_log.
  by destruct (decide (userId = EmptyString)).
Qed.

(** The three bodies of the movie service, on a session that closes cleanly. *)
Lemma sliced_list_run (s : Session) (st : Statement) (ps : list string → Params)
    (userId : string) (page : Paging) :
  close_error s = None →
  MovieService.sliced_list s st ps userId page
  = match (getUserFavorites s userId []).1 with
    | Ok favorites =>
        (records ← respond s st (ps favorites);
         movies ← collect "movie" records;
         Ok (Slice movies (Skip page) (Limit page)),
         lookup_log userId ++ [(cypher st, ps favorites)])
    | Err e => (Err e, lookup_log userId)
    end.
Proof.
  intros Hclose. unfold MovieService.sliced_list.
  rewrite with_session_closed by done.
  unfold ReadTransaction, mbind at 1 2 3, tx_bind, Run, lift.
  rewrite getUserFavorites_frame, getUserFavorites_log. simpl.
  destruct (getUserFavorites s userId []).1 as [favorites|e]; [|done].
  destruct (respond s st (ps favorites)) as [records|e]; simpl; [|done].
  by destruct (collect "movie" records).
Qed.

Lemma detail_run (s : Session) (id userId : string) :
  close_error s = None →
  MovieService.FindOneById s id userId
  = match (getUserFavorites s userId []).1 with
    | Ok favorites =>
        (records ← respond s MovieById (MovieService.detail_params id favorites);
         record ← Single records;
         as_map (Get record "movie"),
         lookup_log userId
           ++ [(text_MovieById, MovieService.detail_params id favorites)])
    | Err e => (Err e, lookup_log userId)
    end.
Proof.
  intros Hclose. unfold MovieService.FindOneById.
  rewrite with_session_closed by done.
  unfold ReadTransaction, mbind at 1 2 3 4, tx_bind, Run, lift.
  rewrite getUserFavorites_frame, getUserFavorites_log. simpl.
  destruct (getUserFavorites s userId []).1 as [favorites|e]; [|done].
  destruct (respond s MovieById _) as [records|e]; simpl; [|done].
  by destruct (Single records).
Qed.

Lemma similar_run (s : Session) (id userId : string) (page : Paging) :
  close_error s = None →
  MovieService.FindAllBySimilarity s id userId page
  = match (getUserFavorites s userId []).1 with
    | Ok favorites =>
        (records ← respond s MoviesSimilar (MovieService.id_params id page favorites);
         collect "movie" records,
         lookup_log userId
           ++ [(text_MoviesSimilar, MovieService.id_params id page favorites)])
    | Err e => (Err e, lookup_log userId)
    end.
Proof.
  intros Hclose. unfold MovieService.FindAllBySimilarity.
  rewrite with_session_closed by done.
  unfold ReadTransaction, mbind at 1 2, tx_bind, Run, lift.
  rewrite getUserFavorites_frame, getUserFavorites_log. simpl.
  destruct (getUserFavorites s userId []).1 as [favorites|e]; [|done].
  by destruct (respond s MoviesSimilar _) as [records|e].
Qed.

Lemma list_movies_run (s : Session) (l : Listing) (userId : string) (page : Paging) :
  close_error s = None →
  list_movies s l userId page
  = match (getUserFavorites s userId []).1 with
    | Ok favorites =>
        (records ← respond s (listing_statement l page) (listing_params l page favorites);
         movies ← collect "movie" records;
         Ok (Slice movies (Skip page) (Limit page)),
         lookup_log userId
           ++ [(cypher (listing_statement l page), listing_params l page favorites)])
    | Err e => (Err e, lookup_log userId)
    end.
Proof. intros Hclose. destruct l; simpl; by apply sliced_list_run. Qed.

Lemma people_runs (s : Session) (id : string) (page : Paging) :
  close_error s = None →
  (PeopleService.FindAll s page).1
    = (records ← respond s (PeopleAll (Sort page) (Order page))
                   (PeopleService.list_params page);
       collect "person" records)
  ∧ (PeopleService.FindOneById s id).1
    = (records ← respond s PersonById (PeopleService.detail_params id);
       record ← Single records;
       as_map (Get record "person"))
  ∧ (PeopleService.FindAllBySimilarity s id page).1
    = (records ← respond s PeopleSimilar (PeopleService.similar_params id page);
       collect "person" records).
Proof.
  intros Hclose.
  unfold PeopleService.FindAll, PeopleService.FindOneById,
    PeopleService.FindAllBySimilarity.
  rewrite !with_session_closed by done.
  unfold ReadTransaction, mbind at 1 3 4 6, tx_bind, Run, lift. simpl.
  repeat split.
  - by destruct (respond s (PeopleAll _ _) _).
  - destruct (respond s PersonById _) as [records|e]; simpl; [|done].
    by destruct (Single records).
  - by destruct (respond s PeopleSimilar _).
Qed.

(** ** Failures *)

(** X3. When the favorites lookup of a movie operation fails, the operation
    returns that error and has submitted the lookup and nothing else: its own
    statement is never run. *)
Theorem failed_lookup_aborts (s : Session) (userId : string) (e : error) :
  close_error s = None →
  (getUserFavorites s userId []).1 = Err e →
  (∀ l page, list_movies s l userId page = (Err e, [favorites_request userId]))
  ∧ (∀ id, MovieService.FindOneById s id userId = (Err e, [favorites_request userId]))
  ∧ (∀ id page,
       MovieService.FindAllBySimilarity s id userId page
       = (Err e, [favorites_request userId])).
Proof.
  intros Hclose Hfav. pose proof (getUserFavorites_failed s userId e Hfav) as Hlog.
  repeat split; intros.
  - by rewrite list_movies_run, Hfav, Hlog.
  - by rewrite detail_run, Hfav, Hlog.
  - by rewrite similar_run, Hfav, Hlog.
Qed.

(** X4. When the store fails the statement of an operation, the operation
    returns the error of the store. *)
Theorem statement_failure_is_returned (s : Session) (userId : string)
    (favorites : list string) (e : error) :
  close_error s = None →
  (getUserFavorites s userId []).1 = Ok favorites →
  (∀ l page,
     respond s (listing_statement l page) (listing_params l page favorites) = Err e →
     (list_movies s l userId page).1 = Err e)
  ∧ (∀ id,
       respond s MovieById (MovieService.detail_params id favorites) = Err e →
       (MovieService.FindOneById s id userId).1 = Err e)
  ∧ (∀ id page,
       respond s MoviesSimilar (MovieService.id_params id page favorites) = Err e →
       (MovieService.FindAllBySimilarity s id userId page).1 = Err e)
  ∧ (∀ page,
       respond s (PeopleAll (Sort page) (Order page)) (PeopleService.list_params page)
         = Err e →
       (PeopleService.FindAll s page).1 = Err e)
  ∧ (∀ id,
       respond s PersonById (PeopleService.detail_params id) = Err e →
       (PeopleService.FindOneById s id).1 = Err e)
  ∧ (∀ id page,
       respond s PeopleSimilar (PeopleService.similar_params id page) = Err e →
       (PeopleService.FindAllBySimilarity s id page).1 = Err e).
Proof.
  intros Hclose Hfav. repeat split.
  - intros l page Hrun. by rewrite list_movies_run, Hfav, Hrun.
  - intros id Hrun. by rewrite detail_run, Hfav, Hrun.
  - intros id page Hrun. by rewrite similar_run, Hfav, Hrun.
  - intros page Hrun.
    destruct (people_runs s EmptyString page Hclose) as (-> & _ & _). by rewrite Hrun.
  - intros id Hrun.
    destruct (people_runs s id (paging EmptyString ASC 0 0) Hclose) as (_ & -> & _).
    by rewrite Hrun.
  - intros id page Hrun.
    destruct (people_runs s id page Hclose) as (_ & _ & ->). by rewrite Hrun.
Qed.

Lemma collect_malformed (key : string) (records : list DbRecord) :
  Exists (malformed key) records →
  collect key records = Err (Panic "interface conversion: not a map").
Proof.
  unfold collect, Get, malformed. induction records as [|record records IH].
  - intros H. by apply Exists_nil in H.
  - intros H. simpl.
    destruct (record !! key) as [[| | | | | |m]|] eqn:Hrecord; simpl; try done.
    apply Exists_cons in H as [H|H]; [by destruct (H m)|].
    by rewrite (IH H).
Qed.

(** X5. A record that has no map under the key the method reads (the key is
    missing, or bound to something else) makes the type assertion of a list
    method fail: no list is returned, not even the rows read before it. *)
Theorem malformed_record_panics (s : Session) (userId : string)
    (favorites : list string) (records : list DbRecord) :
  close_error s = None →
  (getUserFavorites s userId []).1 = Ok favorites →
  (∀ l page,
     respond s (listing_statement l page) (listing_params l page favorites)
       = Ok records →
     Exists (malformed "movie") records →
     (list_movies s l userId page).1 = Err (Panic "interface conversion: not a map"))
  ∧ (∀ id page,
       respond s MoviesSimilar (MovieService.id_params id page favorites) = Ok records →
       Exists (malformed "movie") records →
       (MovieService.FindAllBySimilarity s id userId page).1
       = Err (Panic "interface conversion: not a map"))
  ∧ (∀ page,
       respond s (PeopleAll (Sort page) (Order page)) (PeopleService.list_params page)
         = Ok records →
       Exists (malformed "person") records →
       (PeopleService.FindAll s page).1 = Err (Panic "interface conversion: not a map"))
  ∧ (∀ id page,
       respond s PeopleSimilar (PeopleService.similar_params id page) = Ok records →
       Exists (malformed "person") records →
       (PeopleService.FindAllBySimilarity s id page).1
       = Err (Panic "interface conversion: not a map")).
Proof.
  intros Hclose Hfav. repeat split.
  - intros l page Hrun Hbad.
    rewrite list_movies_run, Hfav, Hrun by done. simpl.
    by rewrite collect_malformed.
  - intros id page Hrun Hbad.
    rewrite similar_run, Hfav, Hrun by done. simpl.
    by rewrite collect_malformed.
  - intros page Hrun Hbad.
    destruct (people_runs s EmptyString page Hclose) as (-> & _ & _).
    rewrite Hrun. simpl. by rewrite collect_malformed.
  - intros id page Hrun Hbad.
    destruct (people_runs s id page Hclose) as (_ & _ & ->).
    rewrite Hrun. simpl. by rewrite collect_malformed.
Qed.

(** ** The statements of a call *)

(** X6. A movie operation whose favorites lookup succeeds submits the lookup
    (none for the empty user identifier) and then its own statement, once,
    with the resolved favorites bound; an operation on people submits its own
    statement and nothing else.  This holds whatever the store answers. *)
Theorem statements_submitted (s : Session) (userId : string)
    (favorites : list string) :
  (getUserFavorites s userId []).1 = Ok favorites →
  (∀ l page,
     (list_movies s l userId page).2
     = lookup_log userId
         ++ [(cypher (listing_statement l page), listing_params l page favorites)])
  ∧ (∀ id,
       (MovieService.FindOneById s id userId).2
       = lookup_log userId
           ++ [(text_MovieById, MovieService.detail_params id favorites)])
  ∧ (∀ id page,
       (MovieService.FindAllBySimilarity s id userId page).2
       = lookup_log userId
           ++ [(text_MoviesSimilar, MovieService.id_params id page favorites)])
  ∧ (∀ page,
       (PeopleService.FindAll s page).2
       = [(text_PeopleAll (Sort page) (order_keyword (Order page)),
           PeopleService.list_params page)])
  ∧ (∀ id,
       (PeopleService.FindOneById s id).2
       = [(text_PersonById, PeopleService.detail_params id)])
  ∧ (∀ id page,
       (PeopleService.FindAllBySimilarity s id page).2
       = [(text_PeopleSimilar, PeopleService.similar_params id page)]).
Proof.
  intros Hfav.
  assert (∀ st ps page,
            (MovieService.sliced_list s st ps userId page).2
            = lookup_log userId ++ [(cypher st, ps favorites)]) as Hsliced.
  { intros st ps page. unfold MovieService.sliced_list.
    rewrite with_session_log.
    unfold ReadTransaction, mbind at 1 2 3, tx_bind, Run, lift.
    rewrite getUserFavorites_frame, getUserFavorites_log, Hfav. simpl.
    destruct (respond s st (ps favorites)) as [records|e]; simpl; [|done].
    by destruct (collect "movie" records). }
  repeat split.
  - intros l page. destruct l; simpl; apply Hsliced.
  - intros id. unfold MovieService.FindOneById. rewrite with_session_log.
    unfold ReadTransaction, mbind at 1 2 3 4, tx_bind, Run, lift.
    rewrite getUserFavorites_frame, getUserFavorites_log, Hfav. simpl.
    destruct (respond s MovieById _) as [records|e]; simpl; [|done].
    by destruct (Single records).
  - intros id page. unfold MovieService.FindAllBySimilarity. rewrite with_session_log.
    unfold ReadTransaction, mbind at 1 2, tx_bind, Run, lift.
    rewrite getUserFavorites_frame, getUserFavorites_log, Hfav. simpl.
    by destruct (respond s MoviesSimilar _).
  - intros page. by destruct (people_logs s EmptyString page) as (-> & _ & _).
  - intros id. by destruct (people_logs s id (paging EmptyString ASC 0 0)) as (_ & -> & _).
  - intros id page. by destruct (people_logs s id page) as (_ & _ & ->).
Qed.

Lemma failed_lookup_aborts_witness :
  (∀ l page, list_movies unavailable l "u1" page
             = (Err (QueryFailure "unavailable"), [favorites_request "u1"]))
  ∧ (∀ id, MovieService.FindOneById unavailable id "u1"
           = (Err (QueryFailure "unavailable"), [favorites_request "u1"]))
  ∧ (∀ id page,
       MovieService.FindAllBySimilarity unavailable id "u1" page
       = (Err (QueryFailure "unavailable"), [favorites_request "u1"])).
Proof.
  apply (failed_lookup_aborts unavailable "u1" (QueryFailure "unavailable")).
  - reflexivity.
  - vm_compute. reflexivity.
Defined.

Lemma statement_failure_is_returned_witness :
  (PeopleService.FindAll unavailable (paging "name" ASC 0 5)).1
  = Err (QueryFailure "unavailable").
Proof.
  destruct (statement_failure_is_returned unavailable EmptyString []
              (QueryFailure "unavailable")) as (_ & _ & _ & Hpeople & _).
  - reflexivity.
  - reflexivity.
  - apply Hpeople. reflexivity.
Defined.

Lemma malformed_record_panics_witness :
  (list_movies garbled Everything EmptyString (paging "title" ASC 0 5)).1
  = Err (Panic "interface conversion: not a map").
Proof.
  destruct (malformed_record_panics garbled EmptyString [] [∅]) as (Hlist & _).
  - reflexivity.
  - reflexivity.
  - apply Hlist; [reflexivity|]. apply Exists_cons_hd. intros m. by rewrite lookup_empty.
Defined.

Lemma statements_submitted_witness :
  (MovieService.FindOneById (neo4j catalogue) "1" "u1").2
  = lookup_log "u1" ++ [(text_MovieById, MovieService.detail_params "1" ["2"])].
Proof.
  destruct (statements_submitted (neo4j catalogue) "u1" ["2"]) as (_ & Hdetail & _).
  - vm_compute. reflexivity.
  - apply Hdetail.
Defined.

(** ** The favorites of a user *)

Lemma traverse_elem_of {A B} (f : A → result B) (l : list A) (k : list B) :
  traverse f l = Ok k → ∀ y, y ∈ k ↔ ∃ x, x ∈ l ∧ f x = Ok y.
Proof.
  revert k. induction l as [|x l IH]; intros k; simpl.
  - intros [= <-] y. split; [by intros ?%elem_of_nil|by intros (? & ?%elem_of_nil & _)].
  - destruct (f x) as [z|e] eqn:Hx; simpl; [|done].
    destruct (traverse f l) as [zs|e]; simpl; [|done].
    intros [= <-] y. rewrite elem_of_cons, (IH zs eq_refl). split.
    + intros [->|(x' & Hx' & Hy)]; [exists x; split; [by left|done]|].
      exists x'. split; [by right|done].
    + intros (x' & Hx' & Hy). apply elem_of_cons in Hx' as [->|Hx'].
      * left. congruence.
      * right. by exists x'.
Qed.

Lemma traverse_failure {A B} (f : A → result B) (l : list A) (e : error) :
  (∀ x e', f x = Err e' → e' = e) →
  Exists (λ x, f x = Err e) l → traverse f l = Err e.
Proof.
  intros Hsame. induction l as [|x l IH]; intros H; simpl.
  - by apply Exists_nil in H.
  - destruct (f x) as [y|e'] eqn:Hx; simpl; [|by rewrite (Hsame x e')].
    apply Exists_cons in H as [H|H]; [congruence|]. by rewrite (IH H).
Qed.

Lemma as_string_ok (v : value) (s : string) : as_string v = Ok s ↔ v = VStr s.
Proof. destruct v; simpl; split; (done || congruence). Qed.

(** The records of the favorites lookup: one per favorite. *)
Lemma elem_of_favorite_records (g : Graph) (userId : string) (record : DbRecord)
    (records : list DbRecord) :
  eval g UserFavorites (<["userId" := VStr userId]> ∅) = Ok records →
  record ∈ records
  ↔ ∃ m, favorite_of g userId m ∧ record = {["id" := prop m "tmdbId"]}.
Proof.
  simpl. unfold param. rewrite lookup_insert_eq. simpl. intros [= <-].
  rewrite list_elem_of_bind. unfold favorite_of. split.
  - intros (u & Hrecord & Hu). apply elem_of_labelled in Hu as (Hu & Hlabel & Hid).
    apply list_elem_of_bind in Hrecord as ([r m] & Hrecord & Hout).
    apply list_elem_of_singleton in Hrecord as ->.
    exists m. split; [|done]. exists u.
    split; [done|]. split; [done|]. split; [done|].
    apply edge_outgoing. by exists r.
  - intros (m & (u & Hu & Hlabel & Hid & Hedge) & ->).
    apply edge_outgoing in Hedge as [r Hr].
    exists u. split; [|by apply elem_of_labelled].
    apply list_elem_of_bind. exists (r, m). split; [|done].
    by apply list_elem_of_singleton.
Qed.

Lemma getUserFavorites_neo4j (g : Graph) (userId : string) :
  userId ≠ EmptyString →
  (getUserFavorites (neo4j g) userId []).1
  = (records ← eval g UserFavorites (<["userId" := VStr userId]> ∅);
     traverse (λ record, as_string (Get record "id")) records).
Proof.
  intros Huser. unfold getUserFavorites.
  destruct (decide (userId = EmptyString)); [done|].
  unfold mbind at 1, tx_bind, Run, lift.
  change (respond (neo4j g)) with (eval g).
  by destruct (eval g UserFavorites _).
Qed.

(** X7. For a user identifier that is not empty, [getUserFavorites] returns
    exactly the [tmdbId]s of the nodes the user has a [HAS_FAVORITE]
    relationship to. *)
Theorem favorites_are_the_targets (g : Graph) (userId : string)
    (favorites : list string) :
  userId ≠ EmptyString →
  (getUserFavorites (neo4j g) userId []).1 = Ok favorites →
  ∀ id, id ∈ favorites
        ↔ ∃ m, favorite_of g userId m ∧ prop m "tmdbId" = VStr id.
Proof.
  intros Huser. rewrite getUserFavorites_neo4j by done.
  destruct (eval g UserFavorites _) as [records|e] eqn:Hrecords; simpl; [|done].
  intros Hfav id. rewrite (traverse_elem_of _ _ _ Hfav). split.
  - intros (record & Hrecord & Hid).
    apply (elem_of_favorite_records g userId record records Hrecords) in Hrecord
      as (m & Hm & ->).
    exists m. split; [done|]. apply as_string_ok in Hid.
    unfold Get in Hid. by rewrite lookup_singleton_eq in Hid.
  - intros (m & Hm & Hid). exists {["id" := prop m "tmdbId"]}. split.
    + apply (elem_of_favorite_records g userId _ records Hrecords). by exists m.
    + apply as_string_ok. unfold Get. by rewrite lookup_singleton_eq.
Qed.

Lemma favorites_are_the_targets_witness :
  "2" ∈ ["2"] ↔ ∃ m, favorite_of catalogue "u1" m ∧ prop m "tmdbId" = VStr "2".
Proof.
  apply (favorites_are_the_targets catalogue "u1" ["2"]).
  - discriminate.
  - vm_compute. reflexivity.
Defined.

(** X8. When a favorite of the user has no string for a [tmdbId], the type
    assertion of [getUserFavorites] fails, and with it every movie operation
    called for that user. *)
Theorem favorite_without_id_panics (g : Graph) (userId : string) (m : Node) :
  userId ≠ EmptyString →
  favorite_of g userId m →
  (∀ id, prop m "tmdbId" ≠ VStr id) →
  (getUserFavorites (neo4j g) userId []).1
    = Err (Panic "interface conversion: not a string")
  ∧ (∀ l page, (list_movies (neo4j g) l userId page).1
               = Err (Panic "interface conversion: not a string"))
  ∧ (∀ id, (MovieService.FindOneById (neo4j g) id userId).1
           = Err (Panic "interface conversion: not a string"))
  ∧ (∀ id page, (MovieService.FindAllBySimilarity (neo4j g) id userId page).1
                = Err (Panic "interface conversion: not a string")).
Proof.
  intros Huser Hm Hid.
  assert ((getUserFavorites (neo4j g) userId []).1
          = Err (Panic "interface conversion: not a string")) as Hfav.
  { rewrite getUserFavorites_neo4j by done.
    destruct (eval g UserFavorites _) as [records|e] eqn:Hrecords; simpl.
    - apply traverse_failure.
      + intros record e'. by destruct (Get record "id"); intros [= <-].
      + apply Exists_exists. exists {["id" := prop m "tmdbId"]}. split.
        * apply (elem_of_favorite_records g userId _ records Hrecords). by exists m.
        * unfold Get. rewrite lookup_singleton_eq. simpl.
          destruct (prop m "tmdbId") as [| | | |s| |]; try done. by destruct (Hid s).
    - simpl in Hrecords. unfold param in Hrecords.
      by rewrite lookup_insert_eq in Hrecords. }
  split; [done|]. repeat split; intros.
  - by rewrite list_movies_run, Hfav.
  - by rewrite detail_run, Hfav.
  - by rewrite similar_run, Hfav.
Qed.

Lemma favorite_without_id_panics_witness :
  (getUserFavorites (neo4j stray_favorite) "u1" []).1
    = Err (Panic "interface conversion: not a string")
  ∧ (∀ l page, (list_movies (neo4j stray_favorite) l "u1" page).1
               = Err (Panic "interface conversion: not a string"))
  ∧ (∀ id, (MovieService.FindOneById (neo4j stray_favorite) id "u1").1
           = Err (Panic "interface conversion: not a string"))
  ∧ (∀ id page, (MovieService.FindAllBySimilarity (neo4j stray_favorite) id "u1" page).1
                = Err (Panic "interface conversion: not a string")).
Proof.
  apply (favorite_without_id_panics stray_favorite "u1"
           (node 1 "Movie" [("title", VStr "Alpha")])).
  - discriminate.
  - exists (node 30 "User" [("userId", VStr "u1")]).
    split; [apply list_elem_of_In; simpl; tauto|].
    split; [reflexivity|]. split; [reflexivity|].
    exists (rel 120 30 "HAS_FAVORITE" 1).
    split; [apply list_elem_of_In; simpl; tauto|].
    split; [reflexivity|]. split; reflexivity.
  - intros id. vm_compute. discriminate.
Defined.

(** ** Detail of one movie, of one person *)

Lemma bind_singletons_length {A B} (f : A → list B) (l : list A) :
  Forall (λ x, ∃ y, f x = [y]) l → length (l ≫= f) = length l.
Proof.
  induction 1 as [|x l [y Hy] _ IH]; [done|].
  rewrite bind_cons, length_app, Hy, IH. done.
Qed.

Lemma ends_exist_spec (g : Graph) (r : Rel) :
  ends_exist g = true → r ∈ rels g →
  (∃ a, find_node g (rel_start r) = Some a) ∧ (∃ b, find_node g (rel_end r) = Some b).
Proof.
  unfold ends_exist. rewrite forallb_forall. intros Hall Hr.
  apply list_elem_of_In, Hall in Hr.
  destruct (find_node g (rel_start r)), (find_node g (rel_end r)); try done.
  split; by eexists.
Qed.

Lemma incoming_length (g : Graph) (type : string) (n : Node) :
  ends_exist g = true →
  length (incoming g [type] n) = length (relationships_into g type n).
Proof.
  intros Hends. unfold incoming, relationships_into.
  rewrite bind_singletons_length.
  - f_equal. apply filter_ext. intros r. unfold has_type. simpl.
    by rewrite orb_false_r.
  - apply Forall_forall. intros r Hr. apply elem_of_filterb in Hr as [Hr _].
    destruct (ends_exist_spec g r Hends Hr) as [[a ->] _]. by eexists.
Qed.

Lemma outgoing_length (g : Graph) (type : string) (n : Node) :
  ends_exist g = true →
  length (outgoing g [type] n) = length (relationships_from g type n).
Proof.
  intros Hends. unfold outgoing, relationships_from.
  rewrite bind_singletons_length.
  - f_equal. apply filter_ext. intros r. unfold has_type. simpl.
    by rewrite orb_false_r.
  - apply Forall_forall. intros r Hr. apply elem_of_filterb in Hr as [Hr _].
    destruct (ends_exist_spec g r Hends Hr) as [_ [b ->]]. by eexists.
Qed.

(** X9. [FindOneById] on movies, for an identifier that some [Movie] node
    carries, returns the projection of the first such node (also when several
    nodes carry it): the properties of the node, the lists [actors],
    [directors] and [genres] with one entry per relationship, [ratingCount]
    equal to the number of [RATED] relationships that end in the node, and the
    favorite flag of the caller. *)
Theorem movie_found (g : Graph) (id userId : string) (favorites : list string)
    (n : Node) (rest : list Node) :
  (getUserFavorites (neo4j g) userId []).1 = Ok favorites →
  ends_exist g = true →
  labelled g "Movie" "tmdbId" (VStr id) = n :: rest →
  ∃ movie actors directors genres,
    (MovieService.FindOneById (neo4j g) id userId).1 = Ok movie
    ∧ (∀ k, k ∉ computed_movie_keys → movie !! k = node_props n !! k)
    ∧ movie !! "ratingCount"
      = Some (VInt (Z.of_nat (length (relationships_into g "RATED" n))))
    ∧ movie !! "actors" = Some (VList actors)
    ∧ length actors = length (relationships_into g "ACTED_IN" n)
    ∧ movie !! "directors" = Some (VList directors)
    ∧ length directors = length (relationships_into g "DIRECTED" n)
    ∧ movie !! "genres" = Some (VList genres)
    ∧ length genres = length (relationships_from g "IN_GENRE" n)
    ∧ favorite_flagged userId favorites movie.
Proof.
  intros Hfav Hends Hfound.
  exists (movie_detail g (VStr <$> favorites) n). eexists _, _, _.
  split; [|split; [|split; [|split; [|split; [|split; [|split; [|split; [|split]]]]]]]].
  - rewrite detail_run, Hfav by done. change (respond (neo4j g)) with (eval g).
    simpl. unfold param_list, param, MovieService.detail_params.
    simplify_map_eq. simpl. rewrite Hfound. simpl.
    unfold Get. by rewrite lookup_singleton_eq.
  - intros k Hk. unfold computed_movie_keys in Hk.
    rewrite !not_elem_of_cons in Hk. destruct Hk as (? & ? & ? & ? & ? & _).
    unfold movie_detail. by rewrite !lookup_insert_ne.
  - unfold movie_detail. simplify_map_eq. by rewrite incoming_length.
  - unfold movie_detail. by simplify_map_eq.
  - by rewrite length_fmap, incoming_length.
  - unfold movie_detail. by simplify_map_eq.
  - by rewrite length_fmap, incoming_length.
  - unfold movie_detail. by simplify_map_eq.
  - by rewrite length_fmap, outgoing_length.
  - eapply favorite_flagged_intro; [done| |]; unfold movie_detail; by simplify_map_eq.
Qed.

Lemma movie_found_witness :
  ∃ movie actors directors genres,
    (MovieService.FindOneById (neo4j catalogue) "2" "u1").1 = Ok movie
    ∧ (∀ k, k ∉ computed_movie_keys
            → movie !! k
              = node_props (node 2 "Movie" [("tmdbId", VStr "2"); ("title", VStr "Beta");
                                            ("imdbRating", VFloat (70 # 10))]) !! k)
    ∧ movie !! "ratingCount" = Some (VInt 0)
    ∧ movie !! "actors" = Some (VList actors)
    ∧ length actors = 1
    ∧ movie !! "directors" = Some (VList directors)
    ∧ length directors = 1
    ∧ movie !! "genres" = Some (VList genres)
    ∧ length genres = 1
    ∧ favorite_flagged "u1" ["2"] movie.
Proof.
  apply (movie_found catalogue "2" "u1" ["2"]
           (node 2 "Movie" [("tmdbId", VStr "2"); ("title", VStr "Beta");
                            ("imdbRating", VFloat (70 # 10))]) []).
  - vm_compute. reflexivity.
  - vm_compute. reflexivity.
  - vm_compute. reflexivity.
Defined.

(** X10. [FindOneById] on people, for an identifier that exactly one [Person]
    node carries, returns the properties of the node with [actedCount] and
    [directedCount] equal to the numbers of [ACTED_IN] and [DIRECTED]
    relationships that leave the node. *)
Theorem person_found (g : Graph) (id : string) (p : Node) :
  ends_exist g = true →
  labelled g "Person" "tmdbId" (VStr id) = [p] →
  ∃ person,
    (PeopleService.FindOneById (neo4j g) id).1 = Ok person
    ∧ (∀ k, k ≠ "actedCount" → k ≠ "directedCount" → person !! k = node_props p !! k)
    ∧ person !! "actedCount"
      = Some (VInt (Z.of_nat (length (relationships_from g "ACTED_IN" p))))
    ∧ person !! "directedCount"
      = Some (VInt (Z.of_nat (length (relationships_from g "DIRECTED" p)))).
Proof.
  intros Hends Hfound. exists (person_detail g p).
  split; [|split; [|split]].
  - destruct (people_runs (neo4j g) id (paging EmptyString ASC 0 0) eq_refl)
      as (_ & -> & _).
    change (respond (neo4j g)) with (eval g).
    simpl. unfold param, PeopleService.detail_params. simplify_map_eq. simpl.
    rewrite Hfound. simpl. unfold Get. by rewrite lookup_singleton_eq.
  - intros k Hacted Hdirected. unfold person_detail. by rewrite !lookup_insert_ne.
  - unfold person_detail. simplify_map_eq. by rewrite outgoing_length.
  - unfold person_detail. simplify_map_eq. by rewrite outgoing_length.
Qed.

Lemma person_found_witness :
  ∃ person,
    (PeopleService.FindOneById (neo4j catalogue) "p2").1 = Ok person
    ∧ (∀ k, k ≠ "actedCount" → k ≠ "directedCount"
            → person !! k
              = node_props (node 21 "Person" [("tmdbId", VStr "p2");
                                              ("name", VStr "Bob Ray")]) !! k)
    ∧ person !! "actedCount" = Some (VInt 1)
    ∧ person !! "directedCount" = Some (VInt 1).
Proof.
  apply (person_found catalogue "p2"
           (node 21 "Person" [("tmdbId", VStr "p2"); ("name", VStr "Bob Ray")])).
  - vm_compute. reflexivity.
  - vm_compute. reflexivity.
Defined.

(** X11. The statement of [FindOneById] on people has no [LIMIT]: when two or
    more [Person] nodes carry the identifier, [result.Single()] fails and the
    method returns that error, not one of the people. *)
Theorem ambiguous_person_is_an_error (g : Graph) (id : string) (p q : Node)
    (rest : list Node) :
  labelled g "Person" "tmdbId" (VStr id) = p :: q :: rest →
  (PeopleService.FindOneById (neo4j g) id).1 = Err NotSingle.
Proof.
  intros Hfound.
  destruct (people_runs (neo4j g) id (paging EmptyString ASC 0 0) eq_refl)
    as (_ & -> & _).
  change (respond (neo4j g)) with (eval g).
  simpl. unfold param, PeopleService.detail_params. simplify_map_eq. simpl.
  by rewrite Hfound.
Qed.

Lemma ambiguous_person_is_an_error_witness :
  (PeopleService.FindOneById (neo4j namesakes) "p1").1 = Err NotSingle.
Proof.
  apply (ambiguous_person_is_an_error namesakes "p1"
           (node 20 "Person" [("tmdbId", VStr "p1"); ("name", VStr "Ann Lee")])
           (node 21 "Person" [("tmdbId", VStr "p1"); ("name", VStr "Ann Lee")]) []).
  vm_compute. reflexivity.
Defined.

(** ** Similar movies and people are returned once *)

Lemma filterb_sublist {A} (f : A → bool) (l : list A) : List.filter f l `sublist_of` l.
Proof.
  induction l as [|x l IH]; simpl; [done|].
  destruct (f x); [by apply sublist_skip|by apply sublist_cons].
Qed.

Lemma distinct_nodes_NoDup (l : list Node) : NoDup (node_id <$> distinct_nodes l).
Proof.
  induction l as [|x l IH]; [constructor|].
  cbn [distinct_nodes]. rewrite fmap_cons. constructor.
  - intros Hx. apply list_elem_of_fmap in Hx as (y & Hid & Hy).
    apply elem_of_filterb in Hy as [_ Hy]. unfold same_node in Hy.
    rewrite Hid, Nat.eqb_refl in Hy. done.
  - eapply sublist_NoDup; [exact IH|]. apply fmap_sublist, filterb_sublist.
Qed.

Lemma scored_nodes (groups : list (Node * nat)) (rows : list (Node * value)) :
  scored groups = Ok rows → fst <$> rows = fst <$> groups.
Proof.
  intros Hrows. apply traverse_Forall2 in Hrows.
  induction Hrows as [|[m n] row groups rows Hrow _ IH]; [done|].
  rewrite !fmap_cons, IH. f_equal.
  simpl in Hrow. destruct (cypher_mul _ _); simpl in Hrow; [|done].
  by injection Hrow as <-.
Qed.

Lemma count_paths_nodes (paths : list Node) :
  fst <$> count_paths paths = distinct_nodes paths.
Proof.
  unfold count_paths. rewrite <- list_fmap_compose. apply list_fmap_id.
Qed.

Lemma insert_by_fmap {A B} (f : A → B) (leb : B → B → bool) (x : A) (l : list A) :
  insert_by leb (f x) (f <$> l) = f <$> insert_by (λ a b, leb (f a) (f b)) x l.
Proof.
  induction l as [|y l IH]; [done|].
  rewrite fmap_cons. simpl. destruct (leb (f x) (f y)); [done|].
  by rewrite IH.
Qed.

Lemma sort_by_fmap {A B} (f : A → B) (leb : B → B → bool) (l : list A) :
  sort_by leb (f <$> l) = f <$> sort_by (λ a b, leb (f a) (f b)) l.
Proof.
  induction l as [|x l IH]; [done|].
  rewrite fmap_cons. simpl. by rewrite IH, insert_by_fmap.
Qed.

Lemma ids_identify_spec (g : Graph) (a b : Node) (s : string) :
  ids_identify g = true → a ∈ nodes g → b ∈ nodes g →
  tmdb_id (node_props a) = Some s → tmdb_id (node_props b) = Some s →
  node_id a = node_id b.
Proof.
  unfold ids_identify. rewrite forallb_forall. intros Hall Ha Hb Hsa Hsb.
  apply list_elem_of_In, Hall in Ha. rewrite forallb_forall in Ha.
  apply list_elem_of_In, Ha in Hb. rewrite Hsa, Hsb, String.eqb_refl in Hb.
  by apply Nat.eqb_eq in Hb.
Qed.

Lemma NoDup_tmdb_ids {A} (g : Graph) (nd : A → Node) (f : A → gmap string value)
    (l : list A) :
  ids_identify g = true →
  (∀ x, tmdb_id (f x) = tmdb_id (node_props (nd x))) →
  Forall (λ x, nd x ∈ nodes g) l →
  NoDup (node_id ∘ nd <$> l) →
  NoDup (omap tmdb_id (f <$> l)).
Proof.
  intros Hids Hf. induction l as [|x l IH]; intros Hin Hnodup; [constructor|].
  apply Forall_cons in Hin as [Hx Hin]. rewrite fmap_cons in Hnodup.
  apply NoDup_cons in Hnodup as [Hfresh Hnodup].
  rewrite fmap_cons. simpl. destruct (tmdb_id (f x)) as [s|] eqn:Hs; [|by apply IH].
  constructor; [|by apply IH].
  intros Hdup. apply list_elem_of_omap in Hdup as (m & Hm & Hsm).
  apply list_elem_of_fmap in Hm as (y & -> & Hy).
  apply Hfresh, list_elem_of_fmap. exists y. split; [|done]. simpl.
  rewrite Forall_forall in Hin.
  apply (ids_identify_spec g (nd x) (nd y) s); try done; [by apply Hin|..];
    by rewrite <- Hf.
Qed.

Lemma similar_movie_paths_nodes (g : Graph) (id : value) (n : Node) :
  n ∈ similar_movie_paths g id → n ∈ nodes g.
Proof.
  intros Hn. apply elem_of_similar_movie_paths in Hn
    as (_ & s & r1 & x & r2 & _ & _ & Hinc & _).
  apply elem_of_incoming in Hinc as (_ & _ & _ & Hfind).
  by eapply find_node_elem_of.
Qed.

Lemma similar_people_paths_nodes (g : Graph) (id : value) (row : Node * (Node * Rel)) :
  row ∈ similar_people_paths g id → row.1 ∈ nodes g.
Proof.
  destruct row as [p [m r]]. intros Hrow.
  apply elem_of_similar_people_paths in Hrow as (s & r1 & _ & _ & Hinc & _).
  apply elem_of_incoming in Hinc as (_ & _ & _ & Hfind).
  by eapply find_node_elem_of.
Qed.

Lemma tmdb_id_similar_projection (favorites : list value) (row : Node * value) :
  tmdb_id (similar_projection favorites row) = tmdb_id (node_props row.1).
Proof. unfold tmdb_id, similar_projection. by simplify_map_eq. Qed.

Lemma tmdb_id_similar_person (g : Graph) (group : Node * list (Node * Rel)) :
  tmdb_id (similar_person g group) = tmdb_id (node_props group.1).
Proof. unfold tmdb_id, similar_person, person_detail. by simplify_map_eq. Qed.

Lemma NoDup_shown {A B} (f : A → B) (leb : A → A → bool) (skip limit : nat)
    (l : list A) :
  NoDup (f <$> l) → NoDup (f <$> window skip limit (sort_by leb l)).
Proof.
  intros Hl. eapply sublist_NoDup; [|apply fmap_sublist, window_sublist].
  by rewrite sort_by_perm.
Qed.

Lemma elem_of_shown {A} (leb : A → A → bool) (skip limit : nat) (l : list A) (x : A) :
  x ∈ window skip limit (sort_by leb l) → x ∈ l.
Proof.
  intros Hx. rewrite <- (sort_by_perm leb l).
  eapply elem_of_sublist; [exact Hx|apply window_sublist].
Qed.

(** X12. On a store where no two nodes carry the same [tmdbId], neither
    [FindAllBySimilarity] returns the same [tmdbId] twice, however many
    connections or titles are shared: the paths of the pattern are grouped by
    the node they end in. *)
Theorem similar_lists_do_not_repeat (g : Graph) (id userId : string) (page : Paging) :
  ids_identify g = true →
  valid_paging page →
  (∀ movies,
     (MovieService.FindAllBySimilarity (neo4j g) id userId page).1 = Ok movies →
     NoDup (omap tmdb_id movies))
  ∧ (∀ people,
       (PeopleService.FindAllBySimilarity (neo4j g) id page).1 = Ok people →
       NoDup (omap tmdb_id people)).
Proof.
  intros Hids Hpage. split.
  - intros movies.
    destruct (getUserFavorites (neo4j g) userId []).1 as [favorites|e] eqn:Hfav;
      [|by rewrite similar_run, Hfav].
    rewrite (similar_movies_result _ _ _ _ favorites) by done.
    destruct (scored _) as [rows|e] eqn:Hrows; simpl; [|done]. intros [= <-].
    apply scored_nodes in Hrows. rewrite count_paths_nodes in Hrows.
    apply (NoDup_tmdb_ids g fst).
    + done.
    + apply tmdb_id_similar_projection.
    + apply Forall_forall. intros row Hrow. apply elem_of_shown in Hrow.
      apply (similar_movie_paths_nodes g (VStr id)), distinct_nodes_subseteq.
      rewrite <- Hrows. by apply list_elem_of_fmap_2.
    + apply NoDup_shown. rewrite list_fmap_compose, Hrows.
      apply distinct_nodes_NoDup.
  - intros people. rewrite similar_people_result by done. intros [= <-].
    unfold similar_people, by_in_common. rewrite sort_by_fmap, <- fmap_window.
    assert (fst <$> collect_by_person (similar_people_paths g (VStr id))
            = distinct_nodes (fst <$> similar_people_paths g (VStr id))) as Hgroups.
    { unfold collect_by_person. rewrite <- list_fmap_compose. apply list_fmap_id. }
    apply (NoDup_tmdb_ids g fst).
    + done.
    + apply tmdb_id_similar_person.
    + apply Forall_forall. intros group Hgroup. apply elem_of_shown in Hgroup.
      assert (group.1 ∈ fst <$> similar_people_paths g (VStr id)) as Hp.
      { apply distinct_nodes_subseteq. rewrite <- Hgroups.
        by apply list_elem_of_fmap_2. }
      apply list_elem_of_fmap in Hp as (row & -> & Hrow).
      by eapply similar_people_paths_nodes.
    + apply NoDup_shown. rewrite list_fmap_compose, Hgroups.
      apply distinct_nodes_NoDup.
Qed.

Lemma similar_lists_do_not_repeat_witness :
  ∃ movies people,
    (MovieService.FindAllBySimilarity (neo4j catalogue) "1" "u1"
       (paging "title" ASC 0 5)).1 = Ok movies
    ∧ (PeopleService.FindAllBySimilarity (neo4j catalogue) "1"
         (paging "title" ASC 0 5)).1 = Ok people
    ∧ NoDup (omap tmdb_id movies)
    ∧ NoDup (omap tmdb_id people).
Proof.
  destruct (similar_lists_do_not_repeat catalogue "1" "u1" (paging "title" ASC 0 5))
    as [Hmovies Hpeople].
  - vm_compute. reflexivity.
  - split; simpl; lia.
  - eexists _, _. split; [vm_compute; reflexivity|]. split; [vm_compute; reflexivity|].
    split; [apply Hmovies|apply Hpeople]; vm_compute; reflexivity.
Defined.

(** ** Similar movies, hop by hop *)

(** X13. Every movie [FindAllBySimilarity] returns is the projection of a node
    that has a rating and that points, like the source movie, to a common
    node through a relationship that leaves it; its score is the rating
    times a positive number of such paths, and the scores never increase
    along the result. *)
Theorem similar_movies_point_to_a_common_node (g : Graph) (id userId : string)
    (page : Paging) (favorites : list string) (movies : list Movie) :
  valid_paging page →
  (getUserFavorites (neo4j g) userId []).1 = Ok favorites →
  (MovieService.FindAllBySimilarity (neo4j g) id userId page).1 = Ok movies →
  StronglySorted by_score_desc movies
  ∧ Forall (λ m, ∃ n inCommon,
                   common_target g id n
                   ∧ prop n "imdbRating" ≠ VNull
                   ∧ 0 < inCommon
                   ∧ cypher_mul (prop n "imdbRating") inCommon = Ok (score m)
                   ∧ m !! "tmdbId" = node_props n !! "tmdbId") movies.
Proof.
  intros Hpage Hfav Hmovies.
  destruct (similar_movies_ranked g id userId page favorites movies Hpage Hfav Hmovies)
    as (Hsorted & Hcandidates & _).
  split; [done|]. eapply Forall_impl; [exact Hcandidates|].
  intros m (n & inCommon & Hn & Hrating & Hcount & Hscore & Hid).
  exists n, inCommon. split; [|split; [done|split; [|done]]].
  - apply elem_of_similar_movie_paths in Hn
      as (_ & s & r1 & x & r2 & Hs & Hout & Hinc & Hne).
    apply elem_of_labelled in Hs as (Hs & Hlabel & Hsid).
    apply elem_of_outgoing in Hout as (Hr1 & Hstart & Htype1 & Hx).
    apply elem_of_incoming in Hinc as (Hr2 & Hend & Htype2 & Hfind).
    by exists s, x, r1, r2.
  - assert (n ∈ List.filter (same_node n) (similar_movie_paths g (VStr id))) as Hin.
    { apply elem_of_filterb. split; [done|]. apply Nat.eqb_refl. }
    rewrite Hcount. destruct (List.filter _ _); [by apply elem_of_nil in Hin|].
    simpl. lia.
Qed.

Lemma similar_movies_point_to_a_common_node_witness :
  ∃ movies,
    (MovieService.FindAllBySimilarity (neo4j catalogue) "1" "u1"
       (paging "title" ASC 0 5)).1 = Ok movies
    ∧ StronglySorted by_score_desc movies
    ∧ Forall (λ m, ∃ n inCommon,
                     common_target catalogue "1" n
                     ∧ prop n "imdbRating" ≠ VNull
                     ∧ 0 < inCommon
                     ∧ cypher_mul (prop n "imdbRating") inCommon = Ok (score m)
                     ∧ m !! "tmdbId" = node_props n !! "tmdbId") movies.
Proof.
  eexists. split; [vm_compute; reflexivity|].
  apply (similar_movies_point_to_a_common_node catalogue "1" "u1"
           (paging "title" ASC 0 5) ["2"]).
  - split; simpl; lia.
  - vm_compute. reflexivity.
  - vm_compute. reflexivity.
Defined.

(** ** Pages of similar movies and people *)

(** X14. [FindAllBySimilarity] reads [skip] and [limit] of the paging and
    nothing else: whatever the sort property, the direction and the query of
    the two pagings, the page at [skip + limit] continues the page at [skip]
    in the ranking of the candidates. *)
Theorem similar_pages_follow (g : Graph) (id userId : string) (page next : Paging) :
  valid_paging page →
  Limit next = Limit page →
  Skip next = (Skip page + Limit page)%Z →
  (∀ first second,
     (MovieService.FindAllBySimilarity (neo4j g) id userId page).1 = Ok first →
     (MovieService.FindAllBySimilarity (neo4j g) id userId next).1 = Ok second →
     ∃ favorites rows,
       (getUserFavorites (neo4j g) userId []).1 = Ok favorites
       ∧ scored (count_paths (similar_movie_paths g (VStr id))) = Ok rows
       ∧ first ++ second
         = similar_projection (VStr <$> favorites)
             <$> window (Z.to_nat (Skip page))
                   (Z.to_nat (Limit page) + Z.to_nat (Limit page)) (by_score rows))
  ∧ (∃ first second,
       (PeopleService.FindAllBySimilarity (neo4j g) id page).1 = Ok first
       ∧ (PeopleService.FindAllBySimilarity (neo4j g) id next).1 = Ok second
       ∧ first ++ second
         = window (Z.to_nat (Skip page))
             (Z.to_nat (Limit page) + Z.to_nat (Limit page))
             (by_in_common (similar_people g id))).
Proof.
  intros [Hskip Hlimit] Hlim Hnext.
  assert (valid_paging page) as Hpage by done.
  assert (valid_paging next) as Hvalid by (split; lia).
  split.
  - intros first second.
    destruct (getUserFavorites (neo4j g) userId []).1 as [favorites|e] eqn:Hfav;
      [|by rewrite similar_run, Hfav].
    rewrite !(similar_movies_result _ _ _ _ favorites) by done.
    destruct (scored _) as [rows|e] eqn:Hrows; simpl; [|done].
    intros [= <-] [= <-]. exists favorites, rows.
    split; [done|]. split; [done|].
    by rewrite Hlim, Hnext, Z2Nat.inj_add, <- fmap_app, window_next by lia.
  - eexists _, _. rewrite !similar_people_result by done.
    split; [done|]. split; [done|].
    by rewrite Hlim, Hnext, Z2Nat.inj_add, window_next by lia.
Qed.

Lemma similar_pages_follow_witness :
  ∃ first second,
    (PeopleService.FindAllBySimilarity (neo4j troupe) "p0" (paging "name" ASC 0 1)).1
      = Ok first
    ∧ (PeopleService.FindAllBySimilarity (neo4j troupe) "p0" (paging "born" DESC 1 1)).1
      = Ok second
    ∧ names (Ok (first ++ second)) = Ok [Some (VStr "Ann"); Some (VStr "Bob")].
Proof.
  destruct (similar_pages_follow troupe "p0" EmptyString (paging "name" ASC 0 1)
              (paging "born" DESC 1 1)) as (_ & first & second & Hfirst & Hsecond & Hboth).
  - split; simpl; lia.
  - reflexivity.
  - reflexivity.
  - exists first, second. split; [done|]. split; [done|].
    rewrite Hboth. vm_compute. reflexivity.
Defined.

Lemma people_pages_follow_witness :
  ∃ first second,
    (PeopleService.FindAll (neo4j catalogue) (paging "name" ASC 0 1)).1 = Ok first
    ∧ (PeopleService.FindAll (neo4j catalogue) (paging "name" ASC 1 1)).1 = Ok second
    ∧ length first ≤ 1
    ∧ names (Ok (first ++ second)) = Ok [Some (VStr "Ann Lee"); Some (VStr "Bob Ray")].
Proof.
  eexists _, _. split; [vm_compute; reflexivity|]. split; [vm_compute; reflexivity|].
  edestruct (people_pages_follow catalogue (paging "name" ASC 0 1)
               (paging "name" ASC 1 1)) as [Hlen Hboth].
  - split; simpl; lia.
  - vm_compute. reflexivity.
  - reflexivity.
  - reflexivity.
  - reflexivity.
  - reflexivity.
  - reflexivity.
  - vm_compute. reflexivity.
  - vm_compute. reflexivity.
  - split; [exact Hlen|]. rewrite Hboth. vm_compute. reflexivity.
Defined.

Lemma list_rows_at_most_limit_witness :
  ∃ rows,
    (MovieService.FindAllBySimilarity (neo4j catalogue) "1" "u1"
       (paging "title" ASC 0 1)).1 = Ok rows
    ∧ length rows ≤ 1.
Proof.
  eexists. split; [vm_compute; reflexivity|].
  apply (list_rows_at_most_limit catalogue "u1" "1" (paging "title" ASC 0 1) ["2"]).
  - split; simpl; lia.
  - vm_compute. reflexivity.
  - right. left. vm_compute. reflexivity.
Defined.

(** ** The favorites only set the flag *)

Lemma unflagged_movie_projection (favorites : list value) (ns : list Node) :
  unflagged (movie_projection favorites <$> ns)
  = (λ n, delete "favorite" (node_props n)) <$> ns.
Proof.
  unfold unflagged. rewrite <- list_fmap_compose. apply list_fmap_ext.
  intros _ n _. simpl. unfold movie_projection. by rewrite delete_insert_eq.
Qed.

Lemma unflagged_similar_projection (favorites : list value) (rows : list (Node * value)) :
  unflagged (similar_projection favorites <$> rows)
  = (λ row, delete "favorite" (<["score" := row.2]> (node_props row.1))) <$> rows.
Proof.
  unfold unflagged. rewrite <- list_fmap_compose. apply list_fmap_ext.
  intros _ row _. simpl. unfold similar_projection. by rewrite delete_insert_eq.
Qed.

(** X15. The favorites of the caller decide the [favorite] flag and nothing
    else: a call for a user and the same call for the anonymous caller return
    the same movies in the same order, equal up to the flag. *)
Theorem favorites_only_set_the_flag (g : Graph) (userId : string) (page : Paging)
    (favorites : list string) :
  valid_paging page →
  (getUserFavorites (neo4j g) userId []).1 = Ok favorites →
  (∀ l, ∃ movies anonymous,
     (list_movies (neo4j g) l userId page).1 = Ok movies
     ∧ (list_movies (neo4j g) l EmptyString page).1 = Ok anonymous
     ∧ unflagged movies = unflagged anonymous)
  ∧ (∀ id movies,
       (MovieService.FindAllBySimilarity (neo4j g) id userId page).1 = Ok movies →
       ∃ anonymous,
         (MovieService.FindAllBySimilarity (neo4j g) id EmptyString page).1 = Ok anonymous
         ∧ unflagged movies = unflagged anonymous).
Proof.
  intros Hpage Hfav. split.
  - intros l. eexists _, _.
    split; [by apply list_movies_ok|]. split; [by apply (list_movies_ok g l _ page [])|].
    unfold store_page. by rewrite !Slice_fmap, !unflagged_movie_projection.
  - intros id movies. rewrite (similar_movies_result _ _ _ _ favorites) by done.
    rewrite (similar_movies_result g id EmptyString page []) by done.
    destruct (scored _) as [rows|e]; simpl; [|done]. intros [= <-].
    eexists. split; [done|]. by rewrite !unflagged_similar_projection.
Qed.

Lemma favorites_only_set_the_flag_witness :
  ∃ movies anonymous,
    (list_movies (neo4j catalogue) Everything "u1" (paging "title" ASC 0 2)).1 = Ok movies
    ∧ (list_movies (neo4j catalogue) Everything EmptyString (paging "title" ASC 0 2)).1
      = Ok anonymous
    ∧ unflagged movies = unflagged anonymous.
Proof.
  destruct (favorites_only_set_the_flag catalogue "u1" (paging "title" ASC 0 2) ["2"])
    as [Hlists _].
  - split; simpl; lia.
  - vm_compute. reflexivity.
  - apply (Hlists Everything).
Defined.

(** ** The query of the people search *)

Lemma lower_char_idempotent (c : ascii) : lower_char (lower_char c) = lower_char c.
Proof. by destruct c as [[] [] [] [] [] [] [] []]. Qed.

Lemma toLower_idempotent (s : string) : toLower (toLower s) = toLower s.
Proof.
  induction s as [|c s IH]; simpl; [done|]. by rewrite lower_char_idempotent, IH.
Qed.

Lemma starts_with_empty (s : string) : starts_with s EmptyString = true.
Proof. by destruct s. Qed.

Lemma contains_empty (s : string) : contains s EmptyString = true.
Proof. destruct s; simpl; by rewrite ?starts_with_empty. Qed.

(** X16. The people search does not see the case of the query: a query and its
    lower-case form return the same list.  The empty query keeps the people
    that have a name and drops the others, where the absent query keeps
    everyone. *)
Theorem search_ignores_the_case_of_the_query (g : Graph) (page : Paging) (q : string) :
  valid_paging page →
  names_are_strings g = true →
  Query page = Some q →
  (PeopleService.FindAll (neo4j g) page).1
    = (PeopleService.FindAll (neo4j g)
         {| Sort := Sort page; Order := Order page; Skip := Skip page;
            Limit := Limit page; Query := Some (toLower q) |}).1
  ∧ (∀ p, included (Some EmptyString) p = true ↔ ∃ name, prop p "name" = VStr name)
  ∧ (∀ p, included None p = true).
Proof.
  intros Hpage Hnames Hq. split; [|split].
  - rewrite !people_result by done. simpl. rewrite Hq. do 4 f_equal.
    apply filter_ext. intros p. simpl. by rewrite toLower_idempotent.
  - intros p. simpl. destruct (prop p "name") as [| | | |name| |];
      try (split; [done|by intros [? ?]]).
    rewrite contains_empty. split; [by exists name|done].
  - done.
Qed.

Lemma search_ignores_the_case_of_the_query_witness :
  (PeopleService.FindAll (neo4j catalogue)
     {| Sort := "name"; Order := ASC; Skip := 0; Limit := 5; Query := Some "RAY" |}).1
  = (PeopleService.FindAll (neo4j catalogue)
       {| Sort := "name"; Order := ASC; Skip := 0; Limit := 5; Query := Some "ray" |}).1.
Proof.
  destruct (search_ignores_the_case_of_the_query catalogue
              {| Sort := "name"; Order := ASC; Skip := 0; Limit := 5;
                 Query := Some "RAY" |} "RAY") as (Heq & _).
  - split; simpl; lia.
  - vm_compute. reflexivity.
  - reflexivity.
  - exact Heq.
Defined.

(** ** Similar people carry every shared title *)

Lemma has_type_elem_of (types : list string) (r : Rel) :
  has_type types r = true ↔ rel_type r ∈ types.
Proof.
  unfold has_type. rewrite existsb_exists. split.
  - intros (t & Hin & Heq). apply String.eqb_eq in Heq as ->. by apply list_elem_of_In.
  - intros Hin. exists (rel_type r). split; [by apply list_elem_of_In|apply String.eqb_refl].
Qed.

Lemma find_node_id (g : Graph) (i : nat) (n : Node) :
  find_node g i = Some n → node_id n = i.
Proof. intros Hn. apply find_some in Hn as [_ Hn]. by apply Nat.eqb_eq in Hn. Qed.

Lemma find_node_first (g : Graph) (i : nat) (n : Node) :
  find_node g i = Some n → find_node g (node_id n) = Some n.
Proof. intros Hn. by rewrite (find_node_id g i n Hn). Qed.

Lemma elem_of_credit_paths (g : Graph) (id : string) (p : Node) (r1 : Rel) (m : Node)
    (r : Rel) :
  (p, (r1, (m, r))) ∈ credit_paths g (VStr id) ↔ credit_path g id p r1 m r.
Proof.
  unfold credit_paths, credit_path. rewrite list_elem_of_bind. split.
  - intros (s & Hrow & Hs). apply list_elem_of_bind in Hrow as ([r1' m'] & Hrow & Hout).
    apply list_elem_of_bind in Hrow as ([r' p'] & Hrow & Hinc).
    destruct (Nat.eqb_spec (rel_id r1') (rel_id r')) as [|Hne]; simpl in Hrow;
      [by apply elem_of_nil in Hrow|].
    apply list_elem_of_singleton in Hrow as [= <- <- <- <-].
    apply elem_of_labelled in Hs as (Hs & Hlabel & Hid).
    apply elem_of_outgoing in Hout as (Hr1 & Hstart & Htype1 & Hm).
    apply elem_of_incoming in Hinc as (Hr & Hend & Htype & Hp).
    apply has_type_elem_of in Htype1, Htype.
    by exists s.
  - intros (s & Hs & Hlabel & Hid & Hr1 & Hstart & Htype1 & Hm & Hr & Hend & Htype
            & Hp & Hne).
    exists s. split; [|by apply elem_of_labelled].
    apply list_elem_of_bind. exists (r1, m). split.
    + apply list_elem_of_bind. exists (r, p). split.
      * destruct (Nat.eqb_spec (rel_id r1) (rel_id r)); [done|].
        by apply list_elem_of_singleton.
      * apply elem_of_incoming. by rewrite has_type_elem_of.
    + apply elem_of_outgoing. by rewrite has_type_elem_of.
Qed.

Lemma fmap_bind_list {A B C} (f : B → C) (k : A → list B) (l : list A) :
  f <$> (l ≫= k) = l ≫= (λ x, f <$> k x).
Proof.
  induction l as [|x l IH]; [done|].
  rewrite !bind_cons, fmap_app. by rewrite IH.
Qed.

Lemma similar_people_paths_credit (g : Graph) (id : value) :
  similar_people_paths g id
  = (λ row : Node * (Rel * (Node * Rel)), (row.1, row.2.2)) <$> credit_paths g id.
Proof.
  unfold similar_people_paths, credit_paths.
  rewrite fmap_bind_list. apply list_bind_ext; [|done]. intros s.
  rewrite fmap_bind_list. apply list_bind_ext; [|done]. intros [r1 m].
  rewrite fmap_bind_list. apply list_bind_ext; [|done]. intros [r p].
  by destruct (negb _).
Qed.

Lemma filterb_fmap {A B} (f : A → B) (P : B → bool) (l : list A) :
  List.filter P (f <$> l) = f <$> List.filter (λ x, P (f x)) l.
Proof.
  induction l as [|x l IH]; [done|].
  rewrite fmap_cons. simpl. destruct (P (f x)); [|done].
  by rewrite fmap_cons, IH.
Qed.

Lemma distinct_nodes_complete (l : list Node) (x : Node) :
  x ∈ l → ∃ y, y ∈ distinct_nodes l ∧ same_node y x = true.
Proof.
  induction l as [|a l IH]; intros Hx; [by apply elem_of_nil in Hx|].
  cbn [distinct_nodes]. apply elem_of_cons in Hx as [->|Hx].
  - exists a. split; [by left|apply Nat.eqb_refl].
  - destruct (IH Hx) as (y & Hy & Hyx).
    destruct (same_node a y) eqn:Hay.
    + exists a. split; [by left|]. unfold same_node in *.
      apply Nat.eqb_eq in Hay, Hyx. apply Nat.eqb_eq. congruence.
    + exists y. split; [|done]. right. apply elem_of_filterb. by rewrite Hay.
Qed.

Lemma NoDup_filterb {A} (f : A → bool) (l : list A) : NoDup l → NoDup (List.filter f l).
Proof. intros Hl. eapply sublist_NoDup; [exact Hl|apply filterb_sublist]. Qed.

Lemma NoDup_outgoing (g : Graph) (types : list string) (n : Node) :
  NoDup (rels g) → NoDup (outgoing g types n).
Proof.
  intros Hrels. unfold outgoing. apply NoDup_bind; [| |by apply NoDup_filterb].
  - intros r r' [r0 x] _ _ Hr Hr'.
    apply list_elem_of_bind in Hr as (? & Hr & _).
    apply list_elem_of_bind in Hr' as (? & Hr' & _).
    apply list_elem_of_singleton in Hr as [= -> _].
    by apply list_elem_of_singleton in Hr' as [= -> _].
  - intros r _. destruct (find_node g (rel_end r)); simpl; [apply NoDup_singleton|constructor].
Qed.

Lemma NoDup_incoming (g : Graph) (types : list string) (n : Node) :
  NoDup (rels g) → NoDup (incoming g types n).
Proof.
  intros Hrels. unfold incoming. apply NoDup_bind; [| |by apply NoDup_filterb].
  - intros r r' [r0 x] _ _ Hr Hr'.
    apply list_elem_of_bind in Hr as (? & Hr & _).
    apply list_elem_of_bind in Hr' as (? & Hr' & _).
    apply list_elem_of_singleton in Hr as [= -> _].
    by apply list_elem_of_singleton in Hr' as [= -> _].
  - intros r _. destruct (find_node g (rel_start r)); simpl; [apply NoDup_singleton|constructor].
Qed.

Lemma NoDup_fmap_eq {A B} (f : A → B) (l : list A) (x y : A) :
  NoDup (f <$> l) → x ∈ l → y ∈ l → f x = f y → x = y.
Proof.
  induction l as [|a l IH]; intros Hl Hx Hy Hxy; [by apply elem_of_nil in Hx|].
  rewrite fmap_cons in Hl. apply NoDup_cons in Hl as [Ha Hl].
  apply elem_of_cons in Hx as [->|Hx]; apply elem_of_cons in Hy as [->|Hy].
  - done.
  - destruct Ha. rewrite Hxy. by apply list_elem_of_fmap_2.
  - destruct Ha. rewrite <- Hxy. by apply list_elem_of_fmap_2.
  - by apply IH.
Qed.

Lemma elem_of_path_row {A} (r1 r : Rel) (x y : A) :
  x ∈ (if negb (Nat.eqb (rel_id r1) (rel_id r)) then [y] else []) → x = y.
Proof.
  destruct (negb _); [by intros ?%list_elem_of_singleton|by intros ?%elem_of_nil].
Qed.

Lemma NoDup_credit_paths (g : Graph) (id : string) :
  unique_ids g → NoDup (credit_paths g (VStr id)).
Proof.
  intros [Hnodes Hrels].
  assert (NoDup (rels g)) as Hrels' by (by eapply NoDup_fmap_1).
  unfold credit_paths. apply NoDup_bind.
  - intros s s' [p [r1 [m r]]] Hs Hs' Hrow Hrow'.
    apply elem_of_labelled in Hs as [Hs _]. apply elem_of_labelled in Hs' as [Hs' _].
    apply (NoDup_fmap_eq node_id (nodes g)); [done..|].
    apply list_elem_of_bind in Hrow as ([r1' m'] & Hrow & Hout).
    apply list_elem_of_bind in Hrow as ([r' p'] & Hrow & _).
    apply elem_of_path_row in Hrow as [= -> -> -> ->].
    apply list_elem_of_bind in Hrow' as ([r1'' m''] & Hrow' & Hout').
    apply list_elem_of_bind in Hrow' as ([r'' p''] & Hrow' & _).
    apply elem_of_path_row in Hrow' as [= -> -> -> ->].
    apply elem_of_outgoing in Hout as (_ & Hstart & _).
    apply elem_of_outgoing in Hout' as (_ & Hstart' & _). congruence.
  - intros s _. apply NoDup_bind; [| |by apply NoDup_outgoing].
    + intros [r1 m] [r1' m'] [p [r0 [m0 r]]] _ _ Hrow Hrow'.
      apply list_elem_of_bind in Hrow as ([r' p'] & Hrow & _).
      apply elem_of_path_row in Hrow as [= -> -> -> ->].
      apply list_elem_of_bind in Hrow' as ([r'' p''] & Hrow' & _).
      by apply elem_of_path_row in Hrow' as [= -> -> -> ->].
    + intros [r1 m] _. apply NoDup_bind; [| |by apply NoDup_incoming].
      * intros [r p] [r' p'] row _ _ Hrow Hrow'.
        apply elem_of_path_row in Hrow as ->.
        by apply elem_of_path_row in Hrow' as [= -> ->].
      * intros [r p] _. destruct (negb _); [apply NoDup_singleton|constructor].
  - apply NoDup_filterb. by eapply NoDup_fmap_1.
Qed.

(** The first component of a row is the node the store finds under its id. *)
Lemma credit_paths_first (g : Graph) (id : string) (row : Node * (Rel * (Node * Rel))) :
  row ∈ credit_paths g (VStr id) → find_node g (node_id row.1) = Some row.1.
Proof.
  destruct row as [p [r1 [m r]]]. intros Hrow.
  apply elem_of_credit_paths in Hrow as (s & Hrow).
  eapply find_node_first. apply Hrow.
Qed.

Lemma credit_paths_same_node (g : Graph) (id : string) (p : Node)
    (row : Node * (Rel * (Node * Rel))) :
  find_node g (node_id p) = Some p →
  row ∈ credit_paths g (VStr id) → same_node p row.1 = true → row.1 = p.
Proof.
  intros Hp Hrow Hsame. apply credit_paths_first in Hrow.
  apply Nat.eqb_eq in Hsame. rewrite Hsame in Hp. congruence.
Qed.

Lemma elem_of_collect_by_person (rows : list (Node * (Node * Rel))) (p : Node)
    (shared : list (Node * Rel)) :
  (p, shared) ∈ collect_by_person rows
  ↔ p ∈ distinct_nodes (fst <$> rows)
    ∧ shared = snd <$> List.filter (λ row, same_node p row.1) rows.
Proof.
  unfold collect_by_person. rewrite list_elem_of_fmap. split.
  - by intros (p' & [= -> ->] & Hp).
  - intros [Hp ->]. by exists p.
Qed.

Lemma collect_by_person_nodes (rows : list (Node * (Node * Rel))) :
  (collect_by_person rows).*1 = distinct_nodes (fst <$> rows).
Proof.
  unfold collect_by_person. induction (distinct_nodes (fst <$> rows)) as [|p l IH]; [done|].
  rewrite !fmap_cons. simpl. by rewrite IH.
Qed.

(** Every group of the aggregation holds all the titles its person shares
    with the source, one entry for every path of the pattern. *)
Lemma collect_by_person_collects (g : Graph) (id : string) (p : Node)
    (shared : list (Node * Rel)) :
  (p, shared) ∈ collect_by_person (similar_people_paths g (VStr id)) →
  collects g id p shared.
Proof.
  intros [Hp ->]%elem_of_collect_by_person.
  apply distinct_nodes_subseteq in Hp. rewrite similar_people_paths_credit in Hp |- *.
  rewrite <- list_fmap_compose in Hp.
  apply list_elem_of_fmap in Hp as (row0 & -> & Hrow0).
  apply credit_paths_first in Hrow0 as Hfirst. simpl in *.
  set (p := row0.1) in *.
  set (via := snd <$> List.filter (λ row : Node * (Rel * (Node * Rel)), same_node p row.1)
                        (credit_paths g (VStr id))).
  assert (∀ r1 m r, (r1, (m, r)) ∈ via ↔ credit_path g id p r1 m r) as Hvia.
  { intros r1 m r. unfold via. rewrite list_elem_of_fmap. split.
    - intros ([p' x] & Hx & Hrow). simpl in Hx. subst x.
      apply elem_of_filterb in Hrow as [Hrow Hsame].
      apply (credit_paths_same_node g id p) in Hsame as Heq; [|done..].
      simpl in Heq. subst p'. by apply elem_of_credit_paths.
    - intros Hpath. exists (p, (r1, (m, r))). split; [done|].
      apply elem_of_filterb. split; [by apply elem_of_credit_paths|apply Nat.eqb_refl]. }
  assert (snd <$> List.filter (λ row : Node * (Node * Rel), same_node p row.1)
                    ((λ row : Node * (Rel * (Node * Rel)), (row.1, row.2.2))
                       <$> credit_paths g (VStr id))
          = snd <$> via) as Hshared.
  { unfold via. rewrite filterb_fmap, <- !list_fmap_compose. done. }
  rewrite Hshared. split.
  - intros m r. rewrite list_elem_of_fmap. unfold shares_title. split.
    + intros ([r1 [m' r']] & [= <- <-] & Hin). exists r1. by apply Hvia.
    + intros [r1 Hpath]. exists (r1, (m, r)). split; [done|]. by apply Hvia.
  - exists via. split; [done|]. split; [done|].
    intros Hids. unfold via. apply NoDup_fmap_2_strong.
    + intros [p1 x1] [p2 x2] Hx1 Hx2 Heq. simpl in Heq. subst x2.
      apply elem_of_filterb in Hx1 as [Hx1 Hs1]. apply elem_of_filterb in Hx2 as [Hx2 Hs2].
      apply (credit_paths_same_node g id p) in Hs1; [|done..].
      apply (credit_paths_same_node g id p) in Hs2; [|done..].
      simpl in *. congruence.
    + by apply NoDup_filterb, NoDup_credit_paths.
Qed.

(** The groups of the aggregation are the people who share a title with the
    source. *)
Lemma collect_by_person_candidates (g : Graph) (id : string) (p : Node) :
  (∃ m r, shares_title g id p m r)
  ↔ ∃ shared, (p, shared) ∈ collect_by_person (similar_people_paths g (VStr id)).
Proof.
  split.
  - intros (m & r & r1 & Hpath). eexists. apply elem_of_collect_by_person.
    split; [|done]. apply elem_of_credit_paths in Hpath as Hrow.
    apply credit_paths_first in Hrow as Hfirst. simpl in Hfirst.
    assert (p ∈ fst <$> similar_people_paths g (VStr id)) as Hp.
    { rewrite similar_people_paths_credit, <- list_fmap_compose.
      apply list_elem_of_fmap. by exists (p, (r1, (m, r))). }
    apply distinct_nodes_complete in Hp as (y & Hy & Hsame).
    apply distinct_nodes_subseteq in Hy as Hy'.
    rewrite similar_people_paths_credit, <- list_fmap_compose in Hy'.
    apply list_elem_of_fmap in Hy' as (row & -> & Hrow').
    apply credit_paths_first in Hrow'. simpl in *.
    apply Nat.eqb_eq in Hsame. rewrite Hsame in Hrow'.
    assert (row.1 = p) as <- by congruence. done.
  - intros (shared & [Hp _]%elem_of_collect_by_person).
    apply distinct_nodes_subseteq in Hp.
    rewrite similar_people_paths_credit, <- list_fmap_compose in Hp.
    apply list_elem_of_fmap in Hp as ([p' [r1 [m r]]] & -> & Hrow). simpl.
    exists m, r, r1. by apply elem_of_credit_paths.
Qed.

Lemma similar_person_with_titles (g : Graph) (group : Node * list (Node * Rel)) :
  person_with_titles group.1 group.2 (similar_person g group).
Proof.
  destruct (similar_person_in_common g group) as [Hl Hsize].
  split; [|done]. intros k Hk.
  apply not_elem_of_cons in Hk as [? Hk]. apply not_elem_of_cons in Hk as [? Hk].
  apply not_elem_of_cons in Hk as [? _].
  unfold similar_person, person_detail. by rewrite !lookup_insert_ne.
Qed.

Lemma shared_title_entry (m : Node) (r : Rel) : title_entry m r (shared_title (m, r)).
Proof.
  eexists. split; [done|]. simpl. split; [by simplify_map_eq|].
  split; [by simplify_map_eq|]. split; [by simplify_map_eq|].
  intros k Hk.
  apply not_elem_of_cons in Hk as [? Hk]. apply not_elem_of_cons in Hk as [? Hk].
  apply not_elem_of_cons in Hk as [? _].
  by rewrite !lookup_insert_ne.
Qed.

(** C4. [FindAllBySimilarity] on people returns the skip/limit window of
    the ranking of all the people who share a title with the person [id]:
    every such node has one group, the ranked entity of a group has the
    properties of its node and carries [inCommon] as the list of the shared
    titles, one entry [{tmdbId, title, type}] for every path of the pattern
    that ends in the node and no other entry, [type] being the type of the
    relationship that connects the person to the title, and along the
    ranking the size of [inCommon] never increases. *)
Theorem similar_people_order (g : Graph) (id : string) (page : Paging) :
  valid_paging page →
  ∃ (groups : list (Node * list (Node * Rel))) (ranked : list Person),
    (PeopleService.FindAllBySimilarity (neo4j g) id page).1
    = Ok (window (Z.to_nat (Skip page)) (Z.to_nat (Limit page)) ranked)
    ∧ StronglySorted by_size_desc ranked
    ∧ Forall2 (λ group person, person_with_titles group.1 group.2 person) groups ranked
    ∧ NoDup (node_id <$> groups.*1)
    ∧ (∀ p, (∃ m r, shares_title g id p m r) ↔ ∃ shared, (p, shared) ∈ groups)
    ∧ Forall (λ group, collects g id group.1 group.2) groups
    ∧ (∀ m r, title_entry m r (shared_title (m, r))).
Proof.
  intros Hpage.
  set (groups0 := collect_by_person (similar_people_paths g (VStr id))).
  set (groups := sort_by (λ a b, Nat.leb (in_common_size (similar_person g b))
                                   (in_common_size (similar_person g a))) groups0).
  assert (by_in_common (similar_people g id) = similar_person g <$> groups) as Hranked.
  { unfold by_in_common, similar_people. by rewrite sort_by_fmap. }
  assert (groups ≡ₚ groups0) as Hperm by apply sort_by_perm.
  exists groups, (similar_person g <$> groups).
  split; [rewrite <- Hranked; by apply similar_people_result|].
  split; [rewrite <- Hranked; apply by_in_common_sorted|].
  split; [|split; [|split; [|split]]].
  - apply Forall2_fmap_r, Forall_Forall2_diag, Forall_forall.
    intros group _. apply similar_person_with_titles.
  - rewrite Hperm. unfold groups0.
    rewrite collect_by_person_nodes. apply distinct_nodes_NoDup.
  - intros p. rewrite collect_by_person_candidates.
    split; intros [shared Hin]; exists shared;
      [rewrite Hperm|rewrite Hperm in Hin]; exact Hin.
  - apply Forall_forall. intros [p shared] Hin. rewrite Hperm in Hin.
    by apply collect_by_person_collects.
  - apply shared_title_entry.
Qed.

Lemma similar_people_order_witness :
  names (PeopleService.FindAllBySimilarity (neo4j ensemble) "p0"
           (paging "name" ASC 0 10)).1
  = Ok [Some (VStr "Bob"); Some (VStr "Cy"); Some (VStr "Ann")]
  ∧ sizes (PeopleService.FindAllBySimilarity (neo4j ensemble) "p0"
             (paging "name" ASC 0 10)).1 = Ok [3; 2; 1]
  ∧ names (PeopleService.FindAllBySimilarity (neo4j ensemble) "p0"
             (paging "name" ASC 1 2)).1
    = Ok [Some (VStr "Cy"); Some (VStr "Ann")]
  ∧ shared_entries (PeopleService.FindAllBySimilarity (neo4j ensemble) "p0"
                      (paging "name" ASC 0 1)).1
    = Ok [[(VStr "Alpha", VStr "ACTED_IN"); (VStr "Beta", VStr "DIRECTED");
           (VStr "Gamma", VStr "ACTED_IN")]]
  ∧ unique_ids ensemble
  ∧ ∃ (groups : list (Node * list (Node * Rel))) (ranked : list Person),
      (PeopleService.FindAllBySimilarity (neo4j ensemble) "p0"
         (paging "name" ASC 1 2)).1 = Ok (window 1 2 ranked)
      ∧ StronglySorted by_size_desc ranked
      ∧ Forall2 (λ group person, person_with_titles group.1 group.2 person) groups ranked
      ∧ NoDup (node_id <$> groups.*1)
      ∧ (∀ p, (∃ m r, shares_title ensemble "p0" p m r)
              ↔ ∃ shared, (p, shared) ∈ groups)
      ∧ Forall (λ group, collects ensemble "p0" group.1 group.2) groups
      ∧ (∀ m r, title_entry m r (shared_title (m, r))).
Proof.
  split; [vm_compute; reflexivity|].
  split; [vm_compute; reflexivity|].
  split; [vm_compute; reflexivity|].
  split; [vm_compute; reflexivity|].
  split; [split; apply (bool_decide_unpack _); vm_compute; exact I|].
  apply (similar_people_order ensemble "p0" (paging "name" ASC 1 2)).
  split; simpl; lia.
Defined.
